(** * Lazy-tensor IR nodes of the TorchScript backend (TsNode.cpp)

    A shallow embedding of
    [lazy_tensor_core/csrc/ts_backend/TsNode.cpp]: the hashing done by the
    [TsNode] constructors, shape access, and deferred shape resolution
    through the process-wide shape cache.

    Conventions.
    - C++ exceptions are an error result; code that reads or writes
      process-wide state (the static shape cache, the environment, the
      dynamic-shape flag, the current scope metadata) runs in the monad [M],
      a state monad over [World] with errors.  State written before an
      exception is raised stays written, as in C++.
    - A method that assigns to a field of [this] takes the object and
      returns the updated object.
    - The hashing primitives of [lazy_tensors::util] are not part of the
      sources at hand; they are the fields of the class [LazyTensorsUtil]
      and every general statement holds for all instances. *)

From Stdlib Require Import ZArith List String Ascii Bool Arith Lia DecimalString.
Import ListNotations.

Set Implicit Arguments.
#[local] Set Warnings "-register-all".

(* ================================================================== *)
(** ** Values: OpKind, Shape, metadata                                 *)
(* ================================================================== *)

(** Modelled from the spec: [OpKind] (declared in ir.h, which is not among
    the sources) is an immutable value made of a namespace and an operation
    name. *)
Record OpKind : Type := MkOpKind {
  op_namespace : string;
  op_name : string
}.

Inductive PrimitiveType : Type :=
| PRED | S8 | S32 | S64 | U8 | F16 | F32 | F64 | INVALID.

(** Modelled from the spec: [lazy_tensors::Shape] (shape.h is not among the
    sources) is either a leaf shape with an element type and an ordered
    sequence of dimensions, or a tuple of shapes. *)
Inductive Shape : Type :=
| LeafShape (element_type : PrimitiveType) (dimensions : list Z)
| TupleShape (tuple_shapes_ : list Shape).

(** [lazy_tensors::Shape()], the default-constructed shape of a node whose
    shape has not been set. *)
Definition Shape_default : Shape := LeafShape INVALID [].

Definition IsTuple (s : Shape) : bool :=
  match s with
  | TupleShape _ => true
  | LeafShape _ _ => false
  end.

(** Modelled from the spec: a leaf shape's rank equals its dimension count.
    A tuple shape has no dimensions of its own. *)
Definition rank (s : Shape) : Z :=
  match s with
  | LeafShape _ dims => Z.of_nat (List.length dims)
  | TupleShape _ => 0%Z
  end.

Record SourceLocation : Type := MkSourceLocation {
  loc_file : string;
  loc_function : string;
  loc_line : Z
}.

Record MetaData : Type := MkMetaData {
  scope : string;
  frame_info : list SourceLocation
}.

(* ================================================================== *)
(** ** Errors                                                          *)
(* ================================================================== *)

Inductive Error : Type :=
| RuntimeError (what : string)     (* std::runtime_error thrown in TsNode.cpp *)
| InvalidArgument                  (* a failed LTC_CHECK *)
| IndexOutOfRange                  (* tuple element index out of bounds *)
| InferenceFailure (what : string) (* whatever a shape function throws *).

Inductive Result (A : Type) : Type :=
| Ok (a : A)
| Raise (e : Error).

Arguments Ok {A} a.
Arguments Raise {A} e.

Definition rbind {A B : Type} (r : Result A) (k : A -> Result B) : Result B :=
  match r with
  | Ok a => k a
  | Raise e => Raise e
  end.

(** A shape function, [std::function<lazy_tensors::Shape()>]: an opaque
    synchronous callback that returns a shape or throws.  It is taken not to
    use the shape cache itself. *)
Definition ShapeFn : Type := unit -> Result Shape.

(* ================================================================== *)
(** ** The hashing primitives                                          *)
(* ================================================================== *)

(** The primitives of [lazy_tensors::util] and the two members of [OpKind]
    and [Shape] that TsNode.cpp calls but that are defined in files not at
    hand.  Only [hash_t] needs decidable equality (it is the key type of the
    shape cache). *)
Class LazyTensorsUtil : Type := {
  hash_t : Type;
  hash_t_eq_dec : forall a b : hash_t, {a = b} + {a <> b};
  (* lazy_tensors::util::HashCombine *)
  HashCombine : hash_t -> hash_t -> hash_t;
  (* lazy_tensors::util::Hash on an integer *)
  Hash_int64 : Z -> hash_t;
  (* lazy_tensors::util::Hash on a string *)
  Hash_string : string -> hash_t;
  (* OpKind::hash() *)
  OpKind_hash : OpKind -> hash_t;
  (* Shape::ToString() *)
  Shape_ToString : Shape -> string
}.

Section Model.

Context {U : LazyTensorsUtil}.

(* ================================================================== *)
(** ** Nodes                                                           *)
(* ================================================================== *)

(** An edge of the graph: a node and the index of one of its outputs.
    [ir::Value] holds a shared pointer and [ir::Output] a plain pointer;
    both are a reference to the node here. *)
Record ValueOf (N : Type) : Type := MkValue {
  node : N;
  index : nat
}.

(** Modelled from the spec: the base class [ir::Node] (ir.h and ir.cpp are
    not among the sources).  Its fields are the ones of spec section 3; the
    two hashes are the values a derived class passes to the base
    constructor, labelled node_hash and dag_hash at the call site. *)
Record NodeBaseOf (N : Type) : Type := MkNodeBase {
  op_ : OpKind;
  operands_ : list (ValueOf N);
  num_outputs_ : nat;
  node_hash_ : hash_t;
  dag_hash_ : hash_t;
  metadata_ : MetaData
}.

(** [class TsNode : public Node], with its one field [shape_]. *)
Record TsNodeOf (N : Type) : Type := MkTsNode {
  base : NodeBaseOf N;
  shape_ : Shape
}.

(** A node seen through the generic base reference [ir::Node]: its dynamic
    type is [TsNode] (or a class derived from it, such as the backward
    operations under csrc/ops), or some other subclass of [Node]. *)
Inductive Node : Type :=
| Node_TsNode (n : TsNodeOf Node)
| Node_Other (b : NodeBaseOf Node).

Definition Value : Type := ValueOf Node.
Definition Output : Type := ValueOf Node.
Definition NodeBase : Type := NodeBaseOf Node.
Definition TsNode : Type := TsNodeOf Node.
Definition OpList : Type := list Value.

Definition Node_base (n : Node) : NodeBase :=
  match n with
  | Node_TsNode ts => base ts
  | Node_Other b => b
  end.

(** [dynamic_cast<const TsNode*>]: [None] is the null pointer. *)
Definition dynamic_cast_TsNode (n : Node) : option TsNode :=
  match n with
  | Node_TsNode ts => Some ts
  | Node_Other _ => None
  end.

(** Modelled from the spec: [Node::hash()] returns the dag hash. *)
Definition Node_hash (n : Node) : hash_t := dag_hash_ (Node_base n).

(** Modelled from the spec: the hash of an operand, [Value::hash()], is the
    dag hash of the node it refers to. *)
Definition Value_hash (v : Value) : hash_t := Node_hash (node v).

(** Accessors of the base class on a [TsNode]. *)
Definition op (this : TsNode) : OpKind := op_ (base this).
Definition operands (this : TsNode) : OpList := operands_ (base this).
Definition num_outputs (this : TsNode) : nat := num_outputs_ (base this).
Definition node_hash (this : TsNode) : hash_t := node_hash_ (base this).
Definition dag_hash (this : TsNode) : hash_t := dag_hash_ (base this).
Definition metadata (this : TsNode) : MetaData := metadata_ (base this).
Definition hash (this : TsNode) : hash_t := dag_hash this.

(** Assignment to the field [shape_]. *)
Definition set_shape_ (this : TsNode) (s : Shape) : TsNode :=
  {| base := base this; shape_ := s |}.

(* ================================================================== *)
(** ** The shape cache                                                 *)
(* ================================================================== *)

(** Modelled from the spec: [lazy_tensors::util::Cache] (cache.h is not among
    the sources), a bounded map from hashes to shapes with
    least-recently-used eviction.  The entries are kept most recently used
    first.  [Get] returns the shape stored under a key or a miss; [Add]
    returns the stored shape: the existing one, unchanged, if the key is
    already present; otherwise, when the cache is full, an existing entry
    (the least recently used) is removed before the new one is inserted.
    The capacity bounds the number of entries: a full cache that has no
    entry to remove (capacity 0) stores nothing, and [Add] returns the
    object it was given. *)
Record Cache : Type := MkCache {
  max_size_ : Z;
  element_list_ : list (hash_t * Shape)
}.

Definition Cache_new (max_size : Z) : Cache :=
  {| max_size_ := max_size; element_list_ := [] |}.

Fixpoint lookup (key : hash_t) (l : list (hash_t * Shape)) : option Shape :=
  match l with
  | [] => None
  | (k, v) :: rest => if hash_t_eq_dec key k then Some v else lookup key rest
  end.

Fixpoint erase (key : hash_t) (l : list (hash_t * Shape))
  : list (hash_t * Shape) :=
  match l with
  | [] => []
  | (k, v) :: rest =>
      if hash_t_eq_dec key k then erase key rest else (k, v) :: erase key rest
  end.

(** Move the entry of [key] to the front of the list. *)
Definition DoLRU (key : hash_t) (v : Shape) (c : Cache) : Cache :=
  {| max_size_ := max_size_ c;
     element_list_ := (key, v) :: erase key (element_list_ c) |}.

Definition Cache_Get (key : hash_t) (c : Cache) : option Shape * Cache :=
  match lookup key (element_list_ c) with
  | Some v => (Some v, DoLRU key v c)
  | None => (None, c)
  end.

Definition Cache_full (c : Cache) : bool :=
  (max_size_ c <=? Z.of_nat (List.length (element_list_ c)))%Z.

Definition Cache_Add (key : hash_t) (object : Shape) (c : Cache)
  : Shape * Cache :=
  match lookup key (element_list_ c) with
  | Some v => (v, DoLRU key v c)
  | None =>
      if Cache_full c then
        match element_list_ c with
        | [] => (object, c)
        | _ :: _ =>
            (object,
             {| max_size_ := max_size_ c;
                element_list_ :=
                  (key, object) :: removelast (element_list_ c) |})
        end
      else
        (object, {| max_size_ := max_size_ c;
                    element_list_ := (key, object) :: element_list_ c |})
  end.

(** A history of calls on a cache, for statements about every use of it. *)
Inductive CacheOp : Type :=
| OpGet (key : hash_t)
| OpAdd (key : hash_t) (object : Shape).

Definition Cache_step (c : Cache) (o : CacheOp) : Cache :=
  match o with
  | OpGet key => snd (Cache_Get key c)
  | OpAdd key object => snd (Cache_Add key object c)
  end.

Definition Cache_run (ops : list CacheOp) (c : Cache) : Cache :=
  fold_left Cache_step ops c.

(** The bound: no more entries than the capacity. *)
Definition within_capacity (c : Cache) : Prop :=
  (Z.of_nat (List.length (element_list_ c)) <= max_size_ c)%Z.

(* ================================================================== *)
(** ** Process-wide state and the monad                                *)
(* ================================================================== *)

(** The state outside the nodes.  [static_cache] is the function-local
    static of [GetShapeCache]: [None] until the first call.
    [shape_fn_calls] is a ghost counter of the invocations of shape
    functions; no code reads it. *)
Record World : Type := MkWorld {
  env : string -> option Z;
  dynamic_mode : bool;
  scope_metadata : MetaData;
  static_cache : option Cache;
  shape_fn_calls : nat
}.

Definition M (A : Type) : Type := World -> Result A * World.

Definition ret {A : Type} (a : A) : M A := fun w => (Ok a, w).

Definition raise {A : Type} (e : Error) : M A := fun w => (Raise e, w).

Definition bind {A B : Type} (m : M A) (k : A -> M B) : M B :=
  fun w =>
    match m w with
    | (Ok a, w') => k a w'
    | (Raise e, w') => (Raise e, w')
    end.

End Model.

Declare Scope ltc_scope.
Delimit Scope ltc_scope with ltc.
Notation "x <- c ;; k" := (bind c (fun x => k))
  (at level 61, c at next level, right associativity) : ltc_scope.
Notation "c ;; k" := (bind c (fun _ => k))
  (at level 61, right associativity) : ltc_scope.

Section Program.

Context {U : LazyTensorsUtil}.

Local Open Scope ltc_scope.

Definition set_static_cache (w : World) (c : Cache) : World :=
  {| env := env w; dynamic_mode := dynamic_mode w;
     scope_metadata := scope_metadata w;
     static_cache := Some c; shape_fn_calls := shape_fn_calls w |}.

Definition tick (w : World) : World :=
  {| env := env w; dynamic_mode := dynamic_mode w;
     scope_metadata := scope_metadata w;
     static_cache := static_cache w;
     shape_fn_calls := S (shape_fn_calls w) |}.

(** Invoking a shape function: the call is counted, then the function
    returns or throws. *)
Definition call (shape_fn : ShapeFn) : M Shape :=
  fun w => (shape_fn tt, tick w).

(** Modelled from the spec: [sys_util::GetEnvInt] reads a named
    configuration value and falls back to the default when it is not set. *)
Definition GetEnvInt (name : string) (defval : Z) (w : World) : Z :=
  match env w name with
  | Some v => v
  | None => defval
  end.

(** Conversion of an int64 to size_t. *)
Definition to_size_t (z : Z) : Z := (z mod 2 ^ 64)%Z.

(** The cache behind the pointer that [GetShapeCache] returns: the static
    one if it has been created, the one its first call creates otherwise. *)
Definition shape_cache (w : World) : Cache :=
  match static_cache w with
  | Some c => c
  | None => Cache_new (to_size_t (GetEnvInt "LTC_IR_SHAPE_CACHE_SIZE" 4096 w))
  end.

(** What a [Get] on the shape cache would return for a key, and the entries
    of the cache. *)
Definition cached (w : World) (key : hash_t) : option Shape :=
  lookup key (element_list_ (shape_cache w)).

Definition cache_entries (w : World) : list (hash_t * Shape) :=
  element_list_ (shape_cache w).

(** [GetShapeCache]: the static is initialised by the first call. *)
Definition GetShapeCache : M unit :=
  fun w => (Ok tt, set_static_cache w (shape_cache w)).

(** [shape_cache->Get(key)] and [shape_cache->Add(key, object)] on the
    cache behind the pointer. *)
Definition ShapeCache_Get (key : hash_t) : M (option Shape) :=
  fun w =>
    let (r, c) := Cache_Get key (shape_cache w) in
    (Ok r, set_static_cache w c).

Definition ShapeCache_Add (key : hash_t) (object : Shape) : M Shape :=
  fun w =>
    let (r, c) := Cache_Add key object (shape_cache w) in
    (Ok r, set_static_cache w c).

Definition IsDynamicMode : M bool :=
  fun w => (Ok (dynamic_mode w), w).

Definition GetMetaDataIfDebugging : M MetaData :=
  fun w => (Ok (scope_metadata w), w).

(* ================================================================== *)
(** ** TsNode.cpp                                                      *)
(* ================================================================== *)

(** The loop of [OperandHashes], with the running [hash] as accumulator. *)
Fixpoint OperandHashes_loop (operands : OpList) (hash : hash_t) : hash_t :=
  match operands with
  | [] => hash
  | operand :: rest =>
      OperandHashes_loop rest (HashCombine hash (Value_hash operand))
  end.

Definition OperandHashes (operands : OpList) (seed : hash_t) : hash_t :=
  OperandHashes_loop operands seed.

(** The step of that loop, for stating what it computes as a fold. *)
Definition step (acc : hash_t) (operand : Value) : hash_t :=
  HashCombine acc (Value_hash operand).

(** Modelled from the spec: an operand is valid when its output index is
    one of the outputs of the node it refers to (spec sections 3 and 4.5). *)
Definition Output_in_range (v : Value) : bool :=
  index v <? num_outputs_ (Node_base (node v)).

(** Modelled from the spec: construction is accepted when the number of
    outputs is positive and every operand is valid (spec section 4.2). *)
Definition ctor_args_ok (num_outputs : nat) (operands : OpList) : bool :=
  (0 <? num_outputs) && forallb Output_in_range operands.

(** Modelled from the spec: the constructors of the base class [Node]
    (ir.cpp is not among the sources) fail with InvalidArgument when the
    number of outputs is not positive or an operand refers to an output
    index out of range (spec sections 4.2 and 7); otherwise they record
    their arguments and the metadata of the current scope.  The one without
    operands takes the node hash as dag hash as well. *)
Definition Node_ctor (op : OpKind) (operands : OpList) (num_outputs : nat)
    (node_hash dag_hash : hash_t) : M NodeBase :=
  if ctor_args_ok num_outputs operands then
    md <- GetMetaDataIfDebugging ;;
    ret {| op_ := op; operands_ := operands; num_outputs_ := num_outputs;
           node_hash_ := node_hash; dag_hash_ := dag_hash; metadata_ := md |}
  else raise InvalidArgument.

Definition Node_ctor_leaf (op : OpKind) (num_outputs : nat)
    (node_hash : hash_t) : M NodeBase :=
  if 0 <? num_outputs then
    md <- GetMetaDataIfDebugging ;;
    ret {| op_ := op; operands_ := []; num_outputs_ := num_outputs;
           node_hash_ := node_hash; dag_hash_ := node_hash; metadata_ := md |}
  else raise InvalidArgument.

(** [TsNode::TsNode(op, operands, shape, num_outputs, hash_seed)]. *)
Definition TsNode_ctor (op : OpKind) (operands : OpList) (shape : Shape)
    (num_outputs : nat) (hash_seed : hash_t) : M TsNode :=
  b <- Node_ctor op operands num_outputs
         (HashCombine (OpKind_hash op) hash_seed)
         (OperandHashes operands (HashCombine (OpKind_hash op) hash_seed)) ;;
  ret {| base := b; shape_ := shape |}.

(** [TsNode::GetOpShape]. The argument of [Add] is evaluated, and so the
    shape function called, before [Add] itself runs. *)
Definition GetOpShape (this : TsNode) (shape_fn : ShapeFn) : M Shape :=
  GetShapeCache ;;
  shape <- ShapeCache_Get (hash this) ;;
  match shape with
  | None =>
      object <- call shape_fn ;;
      ShapeCache_Add (hash this) object
  | Some s => ret s
  end.

(** [TsNode::TsNode(op, operands, shape_fn, num_outputs, hash_seed)]. *)
Definition TsNode_ctor_fn (op : OpKind) (operands : OpList)
    (shape_fn : ShapeFn) (num_outputs : nat) (hash_seed : hash_t) : M TsNode :=
  this <- TsNode_ctor op operands Shape_default num_outputs hash_seed ;;
  s <- GetOpShape this shape_fn ;;
  ret (set_shape_ this s).

(** [TsNode::TsNode(op, operands, num_outputs, hash_seed)]. *)
Definition TsNode_ctor_noshape (op : OpKind) (operands : OpList)
    (num_outputs : nat) (hash_seed : hash_t) : M TsNode :=
  TsNode_ctor op operands Shape_default num_outputs hash_seed.

(** [TsNode::SetShapeDeferred]. *)
Definition SetShapeDeferred (this : TsNode) (shape_fn : ShapeFn) : M TsNode :=
  s <- GetOpShape this shape_fn ;;
  ret (set_shape_ this s).

(** [TsNode::GetOpHash]. *)
Definition GetOpHash (op : OpKind) (shape : Shape) (hash_seed : hash_t)
  : M hash_t :=
  dyn <- IsDynamicMode ;;
  if dyn then
    let h := HashCombine (OpKind_hash op) (Hash_int64 (rank shape)) in
    ret (HashCombine h hash_seed)
  else
    let h := HashCombine (OpKind_hash op)
                         (Hash_string (Shape_ToString shape)) in
    ret (HashCombine h hash_seed).

(** [TsNode::TsNode(op, shape, num_outputs, hash_seed)], the constructor of
    nodes without operands. *)
Definition TsNode_ctor_leaf (op : OpKind) (shape : Shape) (num_outputs : nat)
    (hash_seed : hash_t) : M TsNode :=
  h <- GetOpHash op shape hash_seed ;;
  b <- Node_ctor_leaf op num_outputs h ;;
  ret {| base := b; shape_ := shape |}.

(** [TsNode::shape()]. *)
Definition shape (this : TsNode) : Shape := shape_ this.

(** Modelled from the spec: [Shape::tuple_shapes(index)] returns the element
    at [index] and fails with IndexOutOfRange when the index is out of
    bounds. *)
Definition tuple_shapes (s : Shape) (index : nat) : Result Shape :=
  match s with
  | TupleShape elems =>
      match nth_error elems index with
      | Some e => Ok e
      | None => Raise IndexOutOfRange
      end
  | LeafShape _ _ => Raise IndexOutOfRange
  end.

(** Modelled from the spec: a failed [LTC_CHECK_EQ] is an InvalidArgument
    error. *)
Definition LTC_CHECK_EQ (a b : nat) : Result unit :=
  if Nat.eqb a b then Ok tt else Raise InvalidArgument.

(** [TsNode::shape(size_t output_index)]. *)
Definition shape_at (this : TsNode) (output_index : nat) : Result Shape :=
  if IsTuple (shape_ this) then tuple_shapes (shape_ this) output_index
  else rbind (LTC_CHECK_EQ output_index 0) (fun _ => Ok (shape_ this)).

Definition Expected_TsNode : Error :=
  RuntimeError "Expected TsNode but could not dynamic cast".

(** [GetShapeFromTsOutput], [GetShapeFromTsValue], [GetShapeFromTsNode]. *)
Definition GetShapeFromTsOutput (output : Output) : Result Shape :=
  match dynamic_cast_TsNode (node output) with
  | Some tsnode => shape_at tsnode (index output)
  | None => Raise Expected_TsNode
  end.

Definition GetShapeFromTsValue (value : Value) : Result Shape :=
  match dynamic_cast_TsNode (node value) with
  | Some tsnode => shape_at tsnode (index value)
  | None => Raise Expected_TsNode
  end.

Definition GetShapeFromTsNode (node : Node) : Result Shape :=
  match dynamic_cast_TsNode node with
  | Some tsnode => Ok (shape tsnode)
  | None => Raise Expected_TsNode
  end.

(** [TsNodeSetShapeDeferred]: the node behind the pointer is updated in
    place, so the updated node is returned. *)
Definition TsNodeSetShapeDeferred (node : Node) (shape_fn : ShapeFn)
  : M Node :=
  match dynamic_cast_TsNode node with
  | Some tsnode =>
      tsnode' <- SetShapeDeferred tsnode shape_fn ;;
      ret (Node_TsNode tsnode')
  | None => raise Expected_TsNode
  end.

(** The node after a call of a method that updates it: the returned object,
    or the object as it was when the call raised. *)
Definition after {A : Type} (before : A) (r : Result A) : A :=
  match r with
  | Ok a => a
  | Raise _ => before
  end.

End Program.

(* ================================================================== *)
(** ** An instance of the hashing primitives                           *)
(* ================================================================== *)

Definition mask64 (z : Z) : Z := (z mod 2 ^ 64)%Z.

(** FNV-1a over the characters of a string, on 64-bit words. *)
Fixpoint fnv1a (s : string) (h : Z) : Z :=
  match s with
  | EmptyString => h
  | String c rest =>
      fnv1a rest (mask64 (Z.lxor h (Z.of_nat (nat_of_ascii c)) * 0x100000001b3))
  end.

Definition StringHash (s : string) : Z := fnv1a s 0xcbf29ce484222325%Z.

Definition PrimitiveType_name (t : PrimitiveType) : string :=
  match t with
  | PRED => "pred" | S8 => "s8" | S32 => "s32" | S64 => "s64" | U8 => "u8"
  | F16 => "f16" | F32 => "f32" | F64 => "f64" | INVALID => "invalid"
  end.

Definition Z_to_string (z : Z) : string :=
  NilZero.string_of_int (Z.to_int z).

(** A rendering of shapes such as [f32[4,4]] and [(f32[2], s64[])]. *)
Fixpoint Shape_render (s : Shape) : string :=
  match s with
  | LeafShape t dims =>
      PrimitiveType_name t ++ "[" ++ concat "," (map Z_to_string dims) ++ "]"
  | TupleShape elems =>
      "(" ++ concat ", " (map Shape_render elems) ++ ")"
  end.

Definition OpKind_render (op : OpKind) : string :=
  op_namespace op ++ "::" ++ op_name op.

(** Modelled from the spec: [HashCombine] (util.h is not among the sources)
    as spec section 4.1 asks of it: a deterministic, order-sensitive mixing
    function on 64-bit words.  It is the usual shift-add-xor mixing step,
    with the wrap-around of 64-bit arithmetic written out. *)
Definition mix64 (a b : Z) : Z :=
  Z.lxor a (mask64 (b * 0x27d4eb2f165667c5 + 0x9e3779b97f4a7c15
                    + Z.shiftl a 6 + Z.shiftr a 2)).

(** Modelled from the spec: the hashing primitives as spec section 4.1 asks
    of them: pure, deterministic, well-mixed 64-bit hashes; the hash of an
    OpKind is a function of its namespace and name. *)
Definition Mix64 : LazyTensorsUtil := {|
  hash_t := Z;
  hash_t_eq_dec := Z.eq_dec;
  HashCombine := mix64;
  Hash_int64 := fun z => mask64 (z * 0x9e3779b97f4a7c15);
  Hash_string := StringHash;
  OpKind_hash := fun op => StringHash (OpKind_render op);
  Shape_ToString := Shape_render
|}.

(* ================================================================== *)
(** ** Concrete nodes and worlds                                       *)
(* ================================================================== *)

Definition no_metadata : MetaData := {| scope := ""; frame_info := [] |}.

(** A fresh process: nothing configured, the shape cache not yet created. *)
Definition fresh_world {U : LazyTensorsUtil} : World :=
  {| env := fun _ => None; dynamic_mode := false;
     scope_metadata := no_metadata; static_cache := None;
     shape_fn_calls := 0 |}.

Definition f32_4x4 : Shape := LeafShape F32 [4; 4]%Z.
Definition f32_2x8 : Shape := LeafShape F32 [2; 8]%Z.
Definition s64_4 : Shape := LeafShape S64 [4]%Z.

Definition op_constant : OpKind :=
  {| op_namespace := "prim"; op_name := "Constant" |}.
Definition op_add : OpKind := {| op_namespace := "aten"; op_name := "add" |}.

Section Concrete.

Context {U : LazyTensorsUtil}.

(** The leaf of shape f32[4,4] that [TsNode_ctor_leaf] builds in a fresh
    process from a seed, and a node as the only operand, twice. *)
Definition leaf_hash (seed : hash_t) : hash_t :=
  HashCombine
    (HashCombine (OpKind_hash op_constant)
                 (Hash_string (Shape_ToString f32_4x4))) seed.

Definition leaf (seed : hash_t) : TsNode :=
  {| base := {| op_ := op_constant; operands_ := []; num_outputs_ := 1;
                node_hash_ := leaf_hash seed; dag_hash_ := leaf_hash seed;
                metadata_ := no_metadata |};
     shape_ := f32_4x4 |}.

Definition twice (n : TsNode) : OpList :=
  [ {| node := Node_TsNode n; index := 0 |};
    {| node := Node_TsNode n; index := 0 |} ].

(** add(operands) with an eagerly set shape, as [TsNode_ctor] builds it in a
    fresh process. *)
Definition add_node (operands : OpList) (s : Shape) (seed : hash_t) : TsNode :=
  {| base := {| op_ := op_add; operands_ := operands; num_outputs_ := 1;
                node_hash_ := HashCombine (OpKind_hash op_add) seed;
                dag_hash_ := OperandHashes operands
                               (HashCombine (OpKind_hash op_add) seed);
                metadata_ := no_metadata |};
     shape_ := s |}.

(** A node with three outputs and a tuple shape of three leaf shapes. *)
Definition op_topk : OpKind := {| op_namespace := "aten"; op_name := "topk" |}.

Definition triple_shape : Shape := TupleShape [f32_4x4; f32_2x8; s64_4].

Definition triple_node (seed : hash_t) : TsNode :=
  {| base := {| op_ := op_topk; operands_ := []; num_outputs_ := 3;
                node_hash_ := HashCombine (OpKind_hash op_topk) seed;
                dag_hash_ := HashCombine (OpKind_hash op_topk) seed;
                metadata_ := no_metadata |};
     shape_ := triple_shape |}.

(** A node of another backend: a subclass of [Node] that is not a
    [TsNode]. *)
Definition foreign_node (seed : hash_t) : Node :=
  Node_Other {| op_ := op_add; operands_ := []; num_outputs_ := 1;
                node_hash_ := HashCombine (OpKind_hash op_add) seed;
                dag_hash_ := HashCombine (OpKind_hash op_add) seed;
                metadata_ := no_metadata |}.

(** A fresh process with the capacity of the shape cache configured. *)
Definition configured_world (capacity : Z) : World :=
  {| env := fun name =>
              if String.eqb name "LTC_IR_SHAPE_CACHE_SIZE"
              then Some capacity else None;
     dynamic_mode := false;
     scope_metadata := no_metadata; static_cache := None;
     shape_fn_calls := 0 |}.

(** A fresh process in dynamic-shape mode. *)
Definition dynamic_world : World :=
  {| env := fun _ => None; dynamic_mode := true;
     scope_metadata := no_metadata; static_cache := None;
     shape_fn_calls := 0 |}.

End Concrete.

(** Leaf A, the operand list (A, A) and B = add(A, A) with seed 5, over
    [Mix64]. *)
Definition leaf_A : @TsNode Mix64 := @leaf Mix64 17%Z.
Definition A_A : @OpList Mix64 := twice leaf_A.
Definition node_B : @TsNode Mix64 := @add_node Mix64 A_A f32_4x4 5%Z.

(** B as the constructor without a shape leaves it, to be resolved later. *)
Definition node_B0 : @TsNode Mix64 := @add_node Mix64 A_A Shape_default 5%Z.

(** A fresh process configured with LTC_IR_SHAPE_CACHE_SIZE = 0. *)
Definition zero_capacity_world : @World Mix64 := @configured_world Mix64 0%Z.

(** Shape functions. *)
Definition infer_4x4 : ShapeFn := fun _ => Ok f32_4x4.
Definition infer_2x8 : ShapeFn := fun _ => Ok f32_2x8.
Definition infer_fails : ShapeFn :=
  fun _ => Raise (InferenceFailure "shape mismatch").

(** Three shapes added to a cache under the keys 1, 2 and 3. *)
Definition three_adds : list (@CacheOp Mix64) :=
  [ @OpAdd Mix64 1%Z f32_4x4; @OpAdd Mix64 2%Z f32_2x8;
    @OpAdd Mix64 3%Z s64_4 ].

(* ================================================================== *)
(** ** The rest of TsNode.cpp: printing, and views of the process state *)
(* ================================================================== *)

Section Printing.

Context {U : LazyTensorsUtil}.

(** The stream output of an [OpKind] and [EmitShortFrameInfo] are defined in
    files that are not among the sources: they are parameters.  The stream
    output of a [Shape] is its [ToString()]. *)
Variable OpKind_ToString : OpKind -> string.
Variable EmitShortFrameInfo : list SourceLocation -> string.

(** The stream output of a [size_t], in decimal. *)
Definition size_t_to_string (n : nat) : string :=
  NilZero.string_of_uint (Nat.to_uint n).

(** [TsNode::ToString]; [ss] is the string stream. *)
Definition ToString (this : TsNode) : string :=
  (let ss := Shape_ToString (shape this) ++ " " ++ OpKind_ToString (op this) in
   let ss :=
     if (1 <? num_outputs this)%nat
     then ss ++ ", num_outputs=" ++ size_t_to_string (num_outputs this)
     else ss in
   let ss :=
     if String.eqb (scope (metadata this)) ""
     then ss
     else ss ++ ", scope=" ++ scope (metadata this) in
   ss ++ EmitShortFrameInfo (frame_info (metadata this)))%string.

End Printing.

Section Views.

Context {U : LazyTensorsUtil}.

(** The environment of the process changed from outside (setenv). *)
Definition set_env (w : World) (e : string -> option Z) : World :=
  {| env := e; dynamic_mode := dynamic_mode w;
     scope_metadata := scope_metadata w;
     static_cache := static_cache w;
     shape_fn_calls := shape_fn_calls w |}.

(** The calls that [GetOpShape] makes on the shape cache, read off its body:
    one [Get], and one [Add] when the [Get] missed and the shape function
    returned. *)
Definition GetOpShape_cache_calls (this : TsNode) (shape_fn : ShapeFn)
    (w : World) : list CacheOp :=
  match cached w (hash this) with
  | Some _ => [OpGet (hash this)]
  | None =>
      match shape_fn tt with
      | Ok s => [OpGet (hash this); OpAdd (hash this) s]
      | Raise _ => [OpGet (hash this)]
      end
  end.

(** The node that the constructor without a shape builds. *)
Definition unresolved (o : OpKind) (operands : OpList) (n : nat)
    (seed : hash_t) (md : MetaData) : TsNode :=
  {| base := {| op_ := o; operands_ := operands; num_outputs_ := n;
                node_hash_ := HashCombine (OpKind_hash o) seed;
                dag_hash_ := OperandHashes operands
                               (HashCombine (OpKind_hash o) seed);
                metadata_ := md |};
     shape_ := Shape_default |}.

End Views.

(** Printers for the examples. *)
Definition frames_render (frames : list SourceLocation) : string :=
  concat "" (map (fun l => (", location=" ++ loc_function l ++ "@"
                              ++ loc_file l ++ ":"
                              ++ Z_to_string (loc_line l))%string)
                 frames).

(* ================================================================== *)
(** ** The concrete nodes are the ones the constructors build          *)
(* ================================================================== *)

Example leaf_A_constructed :
  @TsNode_ctor_leaf Mix64 op_constant f32_4x4 1 17%Z fresh_world
  = (Ok leaf_A, fresh_world).
Proof. reflexivity. Qed.

Example node_B0_constructed :
  @TsNode_ctor_noshape Mix64 op_add A_A 1 5%Z fresh_world
  = (Ok node_B0, fresh_world).
Proof. reflexivity. Qed.

Example leaf_A_hash : @hash Mix64 leaf_A = 12029332929012463689%Z.
Proof. vm_compute. reflexivity. Qed.

Example node_B_hash : @hash Mix64 node_B = 3450586785716643362%Z.
Proof. vm_compute. reflexivity. Qed.

(* ================================================================== *)
(** ** Hashing at construction                                         *)
(* ================================================================== *)

Section Hashing.

Context {U : LazyTensorsUtil}.

Lemma OperandHashes_fold_left (operands : OpList) (seed : hash_t) :
  OperandHashes operands seed = fold_left step operands seed.
Proof.
  unfold OperandHashes.
  revert seed.
  induction operands as [|operand rest IH]; intros seed; simpl.
  - reflexivity.
  - apply IH.
Qed.

(** The constructor either rejects its arguments or builds the node, and
    leaves the process state alone. *)
Lemma TsNode_ctor_run (o : OpKind) (operands : OpList) (s : Shape)
    (n : nat) (seed : hash_t) (w : World) :
  TsNode_ctor o operands s n seed w =
  if ctor_args_ok n operands then
    (Ok {| base := {| op_ := o; operands_ := operands; num_outputs_ := n;
                      node_hash_ := HashCombine (OpKind_hash o) seed;
                      dag_hash_ := OperandHashes operands
                                     (HashCombine (OpKind_hash o) seed);
                      metadata_ := scope_metadata w |};
           shape_ := s |}, w)
  else (Raise InvalidArgument, w).
Proof.
  unfold TsNode_ctor, Node_ctor, bind.
  destruct (ctor_args_ok n operands); reflexivity.
Qed.

Lemma TsNode_ctor_Ok_inv (o : OpKind) (operands : OpList) (s : Shape)
    (n : nat) (seed : hash_t) (w w' : World) (this : TsNode) :
  TsNode_ctor o operands s n seed w = (Ok this, w') ->
  ctor_args_ok n operands = true /\
  w' = w /\
  this = {| base := {| op_ := o; operands_ := operands; num_outputs_ := n;
                       node_hash_ := HashCombine (OpKind_hash o) seed;
                       dag_hash_ := OperandHashes operands
                                      (HashCombine (OpKind_hash o) seed);
                       metadata_ := scope_metadata w |};
            shape_ := s |}.
Proof.
  rewrite TsNode_ctor_run.
  destruct (ctor_args_ok n operands); intros H; [|discriminate H].
  injection H as <- <-. repeat split.
Qed.

Lemma bind_Ok {A B : Type} (m : M A) (k : A -> M B) (w w' : World) (a : A) :
  m w = (Ok a, w') -> bind m k w = k a w'.
Proof. intros H. unfold bind. rewrite H. reflexivity. Qed.

Lemma bind_inv_Ok {A B : Type} (m : M A) (k : A -> M B) (w w' : World)
    (b : B) :
  bind m k w = (Ok b, w') ->
  exists a w1, m w = (Ok a, w1) /\ k a w1 = (Ok b, w').
Proof.
  unfold bind. destruct (m w) as [[a|e] w1]; intros H.
  - exists a, w1. split; [reflexivity | exact H].
  - discriminate H.
Qed.

(** The hashes of a node do not depend on which constructor set its
    shape. *)
Lemma TsNode_ctor_fn_hashes (o : OpKind) (operands : OpList) (f : ShapeFn)
    (n : nat) (seed : hash_t) (w w' : World) (this : TsNode) :
  TsNode_ctor_fn o operands f n seed w = (Ok this, w') ->
  base this = {| op_ := o; operands_ := operands; num_outputs_ := n;
                 node_hash_ := HashCombine (OpKind_hash o) seed;
                 dag_hash_ := OperandHashes operands
                                (HashCombine (OpKind_hash o) seed);
                 metadata_ := scope_metadata w |}.
Proof.
  unfold TsNode_ctor_fn. intros H.
  apply bind_inv_Ok in H. destruct H as (this0 & w0 & H0 & H).
  apply TsNode_ctor_Ok_inv in H0. destruct H0 as (_ & -> & ->).
  apply bind_inv_Ok in H. destruct H as (s & w1 & _ & H).
  unfold ret in H. injection H as <- _. reflexivity.
Qed.

(** C1 (as amended): every node that one of the three constructors taking
    an operand list returns has node_hash = combine(hash(op), seed) and
    dag_hash = the left fold over the operands, in order, of
    (acc, operand) -> combine(acc, operand hash), started from node_hash.
    The fold is the dag hash itself: it is not combined with node_hash once
    more.  The constructor returns a node when num_outputs is positive and
    every operand refers to an existing output, and fails with
    InvalidArgument otherwise. *)
Theorem TsNode_ctor_hashes (o : OpKind) (operands : OpList) (n : nat)
    (seed : hash_t) (w : World) :
  (forall (s : Shape) (this : TsNode) (w' : World),
     TsNode_ctor o operands s n seed w = (Ok this, w') ->
     node_hash this = HashCombine (OpKind_hash o) seed /\
     dag_hash this = fold_left step operands (node_hash this))
  /\
  (forall (this : TsNode) (w' : World),
     TsNode_ctor_noshape o operands n seed w = (Ok this, w') ->
     node_hash this = HashCombine (OpKind_hash o) seed /\
     dag_hash this = fold_left step operands (node_hash this))
  /\
  (forall (f : ShapeFn) (this : TsNode) (w' : World),
     TsNode_ctor_fn o operands f n seed w = (Ok this, w') ->
     node_hash this = HashCombine (OpKind_hash o) seed /\
     dag_hash this = fold_left step operands (node_hash this))
  /\
  (ctor_args_ok n operands = true ->
   forall s : Shape,
     exists this, TsNode_ctor o operands s n seed w = (Ok this, w))
  /\
  (ctor_args_ok n operands = false ->
   forall s : Shape,
     TsNode_ctor o operands s n seed w = (Raise InvalidArgument, w)).
Proof.
  assert (Hctor : forall (s : Shape) (this : TsNode) (w' : World),
     TsNode_ctor o operands s n seed w = (Ok this, w') ->
     node_hash this = HashCombine (OpKind_hash o) seed /\
     dag_hash this = fold_left step operands (node_hash this)).
  { intros s this w' H.
    apply TsNode_ctor_Ok_inv in H. destruct H as (_ & _ & ->).
    unfold node_hash, dag_hash; simpl.
    split; [reflexivity | apply OperandHashes_fold_left]. }
  split; [exact Hctor|].
  split; [intros this w'; apply Hctor|].
  split; [|split].
  - intros f this w' H. apply TsNode_ctor_fn_hashes in H.
    unfold node_hash, dag_hash. rewrite H; simpl.
    split; [reflexivity | apply OperandHashes_fold_left].
  - intros Hok s. rewrite TsNode_ctor_run, Hok. eexists. reflexivity.
  - intros Hbad s. rewrite TsNode_ctor_run, Hbad. reflexivity.
Qed.

(** The fold depends on the operands through their hashes only. *)
Lemma fold_left_step_map (operands : OpList) (seed : hash_t) :
  fold_left step operands seed
  = fold_left HashCombine (map Value_hash operands) seed.
Proof.
  revert seed.
  induction operands as [|operand rest IH]; intros seed; simpl.
  - reflexivity.
  - unfold step at 2. apply IH.
Qed.

End Hashing.

(* ================================================================== *)
(** ** Shape access                                                    *)
(* ================================================================== *)

Section ShapeAccess.

Context {U : LazyTensorsUtil}.

(** C4: [shape(index)] on a tuple shape returns the element at the index and
    fails with IndexOutOfRange from the arity on; on a shape that is not a
    tuple it returns the shape for index 0 and fails with InvalidArgument for
    every other index. *)
Theorem TsNode_shape_at_index (this : TsNode) (i : nat) :
  (forall elems : list Shape,
     shape_ this = TupleShape elems ->
     (i < List.length elems ->
      exists e, nth_error elems i = Some e /\ shape_at this i = Ok e) /\
     (List.length elems <= i -> shape_at this i = Raise IndexOutOfRange))
  /\
  (IsTuple (shape_ this) = false ->
     (i = 0 -> shape_at this i = Ok (shape_ this)) /\
     (i <> 0 -> shape_at this i = Raise InvalidArgument)).
Proof.
  unfold shape_at. split.
  - intros elems Hs. rewrite Hs. simpl. split.
    + intros Hlt.
      destruct (nth_error elems i) as [e|] eqn:Hn.
      * exists e. split; reflexivity.
      * apply nth_error_None in Hn. lia.
    + intros Hge. apply nth_error_None in Hge. rewrite Hge. reflexivity.
  - intros Hleaf. rewrite Hleaf. unfold LTC_CHECK_EQ. split.
    + intros ->. reflexivity.
    + intros Hi. apply Nat.eqb_neq in Hi. rewrite Hi. reflexivity.
Qed.

(** C8: every function that goes through the generic node reference fails
    with the runtime error "Expected TsNode but could not dynamic cast" when
    the node is not a [TsNode]; the shape function is not called, and neither
    the node nor the process state is touched. *)
Theorem non_TsNode_is_rejected (n : Node) (i : nat) (f : ShapeFn) (w : World) :
  dynamic_cast_TsNode n = None ->
  GetShapeFromTsOutput {| node := n; index := i |} = Raise Expected_TsNode /\
  GetShapeFromTsValue {| node := n; index := i |} = Raise Expected_TsNode /\
  GetShapeFromTsNode n = Raise Expected_TsNode /\
  TsNodeSetShapeDeferred n f w = (Raise Expected_TsNode, w).
Proof.
  intros Hcast.
  unfold GetShapeFromTsOutput, GetShapeFromTsValue, GetShapeFromTsNode,
    TsNodeSetShapeDeferred; simpl.
  rewrite Hcast. repeat split.
Qed.

End ShapeAccess.

(* ================================================================== *)
(** ** The hash of a leaf node                                         *)
(* ================================================================== *)

Section LeafHash.

Context {U : LazyTensorsUtil}.

Lemma GetOpHash_run (o : OpKind) (s : Shape) (seed : hash_t) (w : World) :
  GetOpHash o s seed w
  = (Ok (if dynamic_mode w
         then HashCombine
                (HashCombine (OpKind_hash o) (Hash_int64 (rank s))) seed
         else HashCombine
                (HashCombine (OpKind_hash o)
                             (Hash_string (Shape_ToString s))) seed), w).
Proof.
  unfold GetOpHash, IsDynamicMode, bind, ret.
  destruct (dynamic_mode w); reflexivity.
Qed.

Lemma TsNode_ctor_leaf_Ok_inv (o : OpKind) (s : Shape) (n : nat)
    (seed : hash_t) (w w' : World) (this : TsNode) :
  TsNode_ctor_leaf o s n seed w = (Ok this, w') ->
  0 < n /\ w' = w /\
  GetOpHash o s seed w = (Ok (node_hash this), w) /\
  shape this = s.
Proof.
  unfold TsNode_ctor_leaf, Node_ctor_leaf.
  unfold bind at 1. rewrite GetOpHash_run.
  destruct (0 <? n) eqn:Hn; unfold bind, raise, GetMetaDataIfDebugging, ret;
    intros H; [|discriminate H].
  injection H as <- <-. apply Nat.ltb_lt in Hn. repeat split; assumption.
Qed.

Lemma TsNode_ctor_leaf_run (o : OpKind) (s : Shape) (n : nat)
    (seed : hash_t) (w : World) :
  0 < n ->
  exists this,
    TsNode_ctor_leaf o s n seed w = (Ok this, w) /\ shape this = s.
Proof.
  intros Hn. apply Nat.ltb_lt in Hn.
  unfold TsNode_ctor_leaf, Node_ctor_leaf.
  unfold bind at 1. rewrite GetOpHash_run, Hn.
  eexists. split; reflexivity.
Qed.

(** C9: in dynamic-shape mode the hash of a leaf node is
    combine(combine(hash(op), hash(rank of the shape)), seed): of the shape
    only the rank enters, so leaves with the same op and seed and shapes of
    equal rank get the same node hash.  Outside of dynamic mode the hash is
    combine(combine(hash(op), hash(string rendering of the shape)), seed):
    the whole shape enters through its rendering. *)
Theorem GetOpHash_shape_dependence (o : OpKind) (seed : hash_t) (w : World) :
  (dynamic_mode w = true ->
   (forall s : Shape,
      GetOpHash o s seed w
      = (Ok (HashCombine
               (HashCombine (OpKind_hash o) (Hash_int64 (rank s))) seed),
         w)) /\
   (forall s1 s2 : Shape,
      rank s1 = rank s2 ->
      GetOpHash o s1 seed w = GetOpHash o s2 seed w) /\
   (forall (s1 s2 : Shape) (n1 n2 : nat) (this1 this2 : TsNode)
           (w1 w2 : World),
      rank s1 = rank s2 ->
      TsNode_ctor_leaf o s1 n1 seed w = (Ok this1, w1) ->
      TsNode_ctor_leaf o s2 n2 seed w = (Ok this2, w2) ->
      node_hash this1 = node_hash this2 /\
      node_hash this1
      = HashCombine
          (HashCombine (OpKind_hash o) (Hash_int64 (rank s1))) seed))
  /\
  (dynamic_mode w = false ->
   (forall s : Shape,
      GetOpHash o s seed w
      = (Ok (HashCombine
               (HashCombine (OpKind_hash o)
                            (Hash_string (Shape_ToString s))) seed), w)) /\
   (forall (s : Shape) (n : nat) (this : TsNode) (w' : World),
      TsNode_ctor_leaf o s n seed w = (Ok this, w') ->
      node_hash this
      = HashCombine
          (HashCombine (OpKind_hash o)
                       (Hash_string (Shape_ToString s))) seed))
  /\
  (forall (s : Shape) (n : nat),
     0 < n ->
     exists this,
       TsNode_ctor_leaf o s n seed w = (Ok this, w) /\ shape this = s).
Proof.
  split; [|split].
  - intros Hdyn.
    assert (Hrun : forall s : Shape,
      GetOpHash o s seed w
      = (Ok (HashCombine
               (HashCombine (OpKind_hash o) (Hash_int64 (rank s))) seed),
         w)).
    { intros s. rewrite GetOpHash_run, Hdyn. reflexivity. }
    split; [exact Hrun|]. split.
    + intros s1 s2 Hrank. rewrite !Hrun, Hrank. reflexivity.
    + intros s1 s2 n1 n2 this1 this2 w1 w2 Hrank H1 H2.
      apply TsNode_ctor_leaf_Ok_inv in H1. destruct H1 as (_ & _ & G1 & _).
      apply TsNode_ctor_leaf_Ok_inv in H2. destruct H2 as (_ & _ & G2 & _).
      rewrite Hrun in G1, G2.
      injection G1 as G1. injection G2 as G2.
      rewrite <- G1, <- G2, Hrank. split; reflexivity.
  - intros Hdyn.
    assert (Hrun : forall s : Shape,
      GetOpHash o s seed w
      = (Ok (HashCombine
               (HashCombine (OpKind_hash o)
                            (Hash_string (Shape_ToString s))) seed), w)).
    { intros s. rewrite GetOpHash_run, Hdyn. reflexivity. }
    split; [exact Hrun|].
    intros s n this w' H.
    apply TsNode_ctor_leaf_Ok_inv in H. destruct H as (_ & _ & G & _).
    rewrite Hrun in G. injection G as G. symmetry. exact G.
  - intros s n Hn. apply TsNode_ctor_leaf_run. exact Hn.
Qed.

End LeafHash.

(* ================================================================== *)
(** ** Deferred shape resolution                                       *)
(* ================================================================== *)

Section Deferred.

Context {U : LazyTensorsUtil}.

Lemma lookup_head (key : hash_t) (v : Shape) (l : list (hash_t * Shape)) :
  lookup key ((key, v) :: l) = Some v.
Proof.
  simpl. destruct (hash_t_eq_dec key key) as [_|Hne].
  - reflexivity.
  - exfalso. apply Hne. reflexivity.
Qed.

Lemma shape_cache_set_static_cache (w : World) (c : Cache) :
  shape_cache (set_static_cache w c) = c.
Proof. reflexivity. Qed.

Lemma shape_cache_tick (w : World) : shape_cache (tick w) = shape_cache w.
Proof. reflexivity. Qed.

Lemma cached_set_static_cache (w : World) (c : Cache) (key : hash_t) :
  cached (set_static_cache w c) key = lookup key (element_list_ c).
Proof. reflexivity. Qed.

Lemma cached_after_DoLRU (w : World) (key : hash_t) (v : Shape) (c : Cache) :
  cached (set_static_cache w (DoLRU key v c)) key = Some v.
Proof. rewrite cached_set_static_cache. apply lookup_head. Qed.

(** On a miss [Add] returns the object it was given. *)
Lemma Cache_Add_miss_fst (key : hash_t) (v : Shape) (c : Cache) :
  lookup key (element_list_ c) = None ->
  fst (Cache_Add key v c) = v.
Proof.
  intros Hmiss. unfold Cache_Add. rewrite Hmiss.
  destruct (Cache_full c); [destruct (element_list_ c)|]; reflexivity.
Qed.

(** In a cache of positive capacity the added object is stored. *)
Lemma cached_after_Add (w : World) (key : hash_t) (v : Shape) (c : Cache) :
  (0 < max_size_ c)%Z ->
  lookup key (element_list_ c) = None ->
  cached (set_static_cache w (snd (Cache_Add key v c))) key = Some v.
Proof.
  intros Hpos Hmiss. rewrite cached_set_static_cache.
  unfold Cache_Add. rewrite Hmiss.
  unfold Cache_full.
  destruct (max_size_ c <=? Z.of_nat (List.length (element_list_ c)))%Z
    eqn:Hfull.
  - destruct (element_list_ c) as [|e rest] eqn:Hl.
    + apply Z.leb_le in Hfull. simpl in Hfull. lia.
    + apply lookup_head.
  - apply lookup_head.
Qed.

(** [GetOpShape] on a hit: the cached shape, no call, the entry moved to the
    front. *)
Lemma GetOpShape_hit (this : TsNode) (f : ShapeFn) (w : World) (s : Shape) :
  cached w (hash this) = Some s ->
  GetOpShape this f w
  = (Ok s, set_static_cache w (DoLRU (hash this) s (shape_cache w))).
Proof.
  unfold cached. intros Hhit.
  unfold GetOpShape, GetShapeCache, ShapeCache_Get, bind, Cache_Get.
  rewrite !shape_cache_set_static_cache, Hhit. reflexivity.
Qed.

(** [GetOpShape] on a miss: one call; its result is added and returned, or
    its exception leaves [GetOpShape] before [Add] runs. *)
Lemma GetOpShape_miss (this : TsNode) (f : ShapeFn) (w : World) :
  cached w (hash this) = None ->
  GetOpShape this f w
  = match f tt with
    | Ok s =>
        (Ok s,
         set_static_cache (tick w)
           (snd (Cache_Add (hash this) s (shape_cache w))))
    | Raise e => (Raise e, tick (set_static_cache w (shape_cache w)))
    end.
Proof.
  unfold cached. intros Hmiss.
  unfold GetOpShape, GetShapeCache, ShapeCache_Get, ShapeCache_Add, call,
    bind, Cache_Get.
  rewrite !shape_cache_set_static_cache, Hmiss.
  destruct (f tt) as [s|e].
  - rewrite shape_cache_tick, shape_cache_set_static_cache.
    pose proof (Cache_Add_miss_fst (hash this) s (shape_cache w) Hmiss)
      as Hfst.
    destruct (Cache_Add (hash this) s (shape_cache w)) as [r c].
    simpl in Hfst. subst r. reflexivity.
  - reflexivity.
Qed.

Lemma SetShapeDeferred_unfold (this : TsNode) (f : ShapeFn) (w : World) :
  SetShapeDeferred this f w
  = match GetOpShape this f w with
    | (Ok s, w') => (Ok (set_shape_ this s), w')
    | (Raise e, w') => (Raise e, w')
    end.
Proof. reflexivity. Qed.

Lemma set_shape_same (this : TsNode) : set_shape_ this (shape_ this) = this.
Proof. destruct this. reflexivity. Qed.

(** After a resolution that returned, the node has its base fields, and,
    when the cache has a positive capacity, the cache holds the node's shape
    under the node's hash. *)
Lemma SetShapeDeferred_Ok_cached (this this' : TsNode) (f : ShapeFn)
    (w w' : World) :
  SetShapeDeferred this f w = (Ok this', w') ->
  base this' = base this /\
  ((0 < max_size_ (shape_cache w))%Z ->
   cached w' (hash this) = Some (shape_ this')) /\
  shape_fn_calls w' <= S (shape_fn_calls w).
Proof.
  rewrite SetShapeDeferred_unfold.
  destruct (cached w (hash this)) as [s|] eqn:Hc.
  - rewrite (GetOpShape_hit this f w Hc).
    intros H. injection H as <- <-. simpl.
    split; [reflexivity|].
    split; [intros _; apply cached_after_DoLRU | lia].
  - rewrite (GetOpShape_miss this f w Hc).
    destruct (f tt) as [s|e]; intros H; [|discriminate H].
    injection H as <- <-. simpl.
    split; [reflexivity|]. split; [|lia].
    intros Hpos. apply (cached_after_Add (tick w)); assumption.
Qed.

(** The stored shape after a resolution, whether it returned or raised. *)
Lemma SetShapeDeferred_shape (this : TsNode) (f : ShapeFn) (w : World) :
  shape (after this (fst (SetShapeDeferred this f w)))
  = match cached w (hash this) with
    | Some s => s
    | None =>
        match f tt with
        | Ok s => s
        | Raise _ => shape this
        end
    end.
Proof.
  rewrite SetShapeDeferred_unfold.
  destruct (cached w (hash this)) as [s|] eqn:Hc.
  - rewrite (GetOpShape_hit this f w Hc). reflexivity.
  - rewrite (GetOpShape_miss this f w Hc).
    destruct (f tt) as [s|e]; reflexivity.
Qed.

(** C2 (as amended): deferred resolution memoizes by the node's hash when
    the shape cache has a positive capacity.  On a hit the cached shape is
    adopted and the shape function is not called.  On a miss the shape
    function is called once and its result is stored in the node; with a
    positive capacity it is in the cache under that hash afterwards.  So,
    with a positive capacity, two resolutions in sequence, on nodes with the
    same hash, call a shape function at most once in all, and the two nodes
    end with the same shape. *)
Theorem SetShapeDeferred_memoizes (this : TsNode) (f : ShapeFn) (w : World) :
  (forall s : Shape,
     cached w (hash this) = Some s ->
     exists w',
       SetShapeDeferred this f w = (Ok (set_shape_ this s), w') /\
       shape_fn_calls w' = shape_fn_calls w /\
       cached w' (hash this) = Some s)
  /\
  (cached w (hash this) = None ->
   forall s : Shape,
     f tt = Ok s ->
     exists w',
       SetShapeDeferred this f w = (Ok (set_shape_ this s), w') /\
       shape_fn_calls w' = S (shape_fn_calls w) /\
       ((0 < max_size_ (shape_cache w))%Z ->
        cached w' (hash this) = Some s))
  /\
  ((0 < max_size_ (shape_cache w))%Z ->
   forall (other : TsNode) (g : ShapeFn),
     hash other = hash this ->
     let r := (n1 <- SetShapeDeferred this f ;;
               n2 <- SetShapeDeferred other g ;;
               ret (n1, n2))%ltc w in
     shape_fn_calls (snd r) <= S (shape_fn_calls w) /\
     forall n1 n2 : TsNode, fst r = Ok (n1, n2) -> shape_ n1 = shape_ n2).
Proof.
  split; [|split].
  - intros s Hhit. eexists.
    rewrite SetShapeDeferred_unfold, (GetOpShape_hit this f w Hhit).
    split; [reflexivity|]. split; [reflexivity|].
    apply cached_after_DoLRU.
  - intros Hmiss s Hf. eexists.
    rewrite SetShapeDeferred_unfold, (GetOpShape_miss this f w Hmiss), Hf.
    split; [reflexivity|]. split; [reflexivity|].
    intros Hpos. apply (cached_after_Add (tick w)); assumption.
  - intros Hpos other g Hhash r.
    assert (Hr : r = match SetShapeDeferred this f w with
                     | (Ok n1, w1) =>
                         match SetShapeDeferred other g w1 with
                         | (Ok n2, w2) => (Ok (n1, n2), w2)
                         | (Raise e, w2) => (Raise e, w2)
                         end
                     | (Raise e, w1) => (Raise e, w1)
                     end) by reflexivity.
    rewrite Hr. clear Hr r.
    destruct (SetShapeDeferred this f w) as [[n1|e] w1] eqn:H1.
    + destruct (SetShapeDeferred_Ok_cached _ _ _ H1) as (_ & Hc & Hcalls).
      specialize (Hc Hpos).
      rewrite <- Hhash in Hc.
      rewrite SetShapeDeferred_unfold, (GetOpShape_hit other g w1 Hc).
      simpl. split; [exact Hcalls|].
      intros m1 m2 H. injection H as <- <-. reflexivity.
    + simpl. split.
      * rewrite SetShapeDeferred_unfold in H1.
        destruct (cached w (hash this)) as [s|] eqn:Hc.
        -- rewrite (GetOpShape_hit this f w Hc) in H1. discriminate H1.
        -- rewrite (GetOpShape_miss this f w Hc) in H1.
           destruct (f tt); [discriminate H1|].
           injection H1 as _ <-. simpl. lia.
      * intros m1 m2 H. discriminate H.
Qed.

(** C3 (as amended): [SetShapeDeferred] assigns the stored shape each time
    it returns.  After the call the stored shape is the shape cached under
    the node's hash when there is one; on a miss it is what the shape
    function returned; and when the shape function raised it is the shape
    as it was.  So a shape that was already set is replaced whenever that
    value differs from it.  When the shape cache has a positive capacity, a
    resolution that directly follows a resolution that returned, on the same
    node and with any shape function, finds the node's shape in the cache,
    calls nothing and leaves the node as it is. *)
Theorem SetShapeDeferred_again_keeps_shape (this : TsNode) (w : World) :
  (forall f : ShapeFn,
     shape (after this (fst (SetShapeDeferred this f w)))
     = match cached w (hash this) with
       | Some s => s
       | None =>
           match f tt with
           | Ok s => s
           | Raise _ => shape this
           end
       end)
  /\
  ((0 < max_size_ (shape_cache w))%Z ->
   forall (f g : ShapeFn) (this1 : TsNode) (w1 : World),
     SetShapeDeferred this f w = (Ok this1, w1) ->
     exists w2,
       SetShapeDeferred this1 g w1 = (Ok this1, w2) /\
       shape_fn_calls w2 = shape_fn_calls w1).
Proof.
  split.
  - intros f. apply SetShapeDeferred_shape.
  - intros Hpos f g this1 w1 H1.
    destruct (SetShapeDeferred_Ok_cached _ _ _ H1) as (Hb & Hc & _).
    specialize (Hc Hpos).
    assert (Hc1 : cached w1 (hash this1) = Some (shape_ this1)).
    { unfold hash, dag_hash in *. rewrite Hb. exact Hc. }
    eexists.
    rewrite SetShapeDeferred_unfold, (GetOpShape_hit this1 g w1 Hc1).
    rewrite set_shape_same. split; reflexivity.
Qed.

(** C5: when the shape function raises, [SetShapeDeferred] raises the same
    error and the entries of the shape cache are as before: nothing is stored
    under the node's hash, and a later resolution for that hash calls its own
    shape function and gets that function's result. *)
Theorem failed_shape_fn_leaves_cache (this : TsNode) (f : ShapeFn)
    (w : World) (e : Error) :
  cached w (hash this) = None ->
  f tt = Raise e ->
  exists w',
    SetShapeDeferred this f w = (Raise e, w') /\
    cache_entries w' = cache_entries w /\
    cached w' (hash this) = None /\
    forall (other : TsNode) (g : ShapeFn),
      hash other = hash this ->
      exists w'',
        SetShapeDeferred other g w'
        = (match g tt with
           | Ok s => Ok (set_shape_ other s)
           | Raise e' => Raise e'
           end, w'') /\
        shape_fn_calls w'' = S (shape_fn_calls w').
Proof.
  intros Hmiss Hf. eexists.
  rewrite SetShapeDeferred_unfold, (GetOpShape_miss this f w Hmiss), Hf.
  split; [reflexivity|]. split; [reflexivity|]. split; [exact Hmiss|].
  intros other g Hhash.
  assert (Hmiss' : cached (tick (set_static_cache w (shape_cache w)))
                     (hash other) = None)
    by (rewrite Hhash; exact Hmiss).
  rewrite SetShapeDeferred_unfold, (GetOpShape_miss other g _ Hmiss').
  destruct (g tt) as [s|e']; eexists; split; reflexivity.
Qed.

(** C10: [SetShapeDeferred] writes the field [shape_] and no other: op,
    operands, num_outputs, node_hash, dag_hash and metadata are the same
    before and after the call, whether it returns or raises, and so is
    hash(). *)
Theorem SetShapeDeferred_frame (this : TsNode) (f : ShapeFn) (w : World) :
  let this' := after this (fst (SetShapeDeferred this f w)) in
  op this' = op this /\
  operands this' = operands this /\
  num_outputs this' = num_outputs this /\
  node_hash this' = node_hash this /\
  dag_hash this' = dag_hash this /\
  metadata this' = metadata this /\
  hash this' = hash this.
Proof.
  intros this'.
  assert (Hb : base this' = base this).
  { subst this'. rewrite SetShapeDeferred_unfold.
    destruct (GetOpShape this f w) as [[s|e] w']; reflexivity. }
  unfold op, operands, num_outputs, node_hash, hash, dag_hash, metadata.
  rewrite Hb. repeat split.
Qed.

End Deferred.

(* ================================================================== *)
(** ** The bound of the shape cache                                    *)
(* ================================================================== *)

Section CacheBound.

Context {U : LazyTensorsUtil}.

Lemma lookup_In (key : hash_t) (v : Shape) (l : list (hash_t * Shape)) :
  lookup key l = Some v -> In (key, v) l.
Proof.
  induction l as [|[k x] rest IH]; simpl; intros H.
  - discriminate H.
  - destruct (hash_t_eq_dec key k) as [->|_].
    + injection H as <-. left. reflexivity.
    + right. apply IH. exact H.
Qed.

Lemma erase_In (key : hash_t) (e : hash_t * Shape)
    (l : list (hash_t * Shape)) :
  In e (erase key l) -> In e l.
Proof.
  induction l as [|[k x] rest IH]; simpl; intros H.
  - exact H.
  - destruct (hash_t_eq_dec key k) as [_|_].
    + right. apply IH. exact H.
    + destruct H as [H|H]; [left; exact H | right; apply IH; exact H].
Qed.

Lemma erase_length (key : hash_t) (l : list (hash_t * Shape)) :
  List.length (erase key l) <= List.length l.
Proof.
  induction l as [|[k x] rest IH]; simpl.
  - lia.
  - destruct (hash_t_eq_dec key k); simpl; lia.
Qed.

Lemma erase_length_hit (key : hash_t) (v : Shape)
    (l : list (hash_t * Shape)) :
  lookup key l = Some v -> S (List.length (erase key l)) <= List.length l.
Proof.
  induction l as [|[k x] rest IH]; simpl; intros H.
  - discriminate H.
  - destruct (hash_t_eq_dec key k) as [_|_].
    + pose proof (erase_length key rest). lia.
    + simpl. apply IH in H. lia.
Qed.

Lemma removelast_In {A : Type} (x : A) (l : list A) :
  In x (removelast l) -> In x l.
Proof.
  induction l as [|a rest IH]; simpl; intros H.
  - exact H.
  - destruct rest as [|b rest'].
    + destruct H.
    + destruct H as [H|H]; [left; exact H | right; apply IH; exact H].
Qed.

Lemma removelast_shorter {A : Type} (l : list A) :
  l <> [] -> S (List.length (removelast l)) = List.length l.
Proof.
  induction l as [|a rest IH]; intros Hne.
  - exfalso. apply Hne. reflexivity.
  - destruct rest as [|b rest'].
    + reflexivity.
    + change (S (S (List.length (removelast (b :: rest'))))
              = S (List.length (b :: rest'))).
      rewrite IH; [reflexivity | discriminate].
Qed.

Lemma Cache_Add_max_size (key : hash_t) (object : Shape) (c : Cache) :
  max_size_ (snd (Cache_Add key object c)) = max_size_ c.
Proof.
  unfold Cache_Add.
  destruct (lookup key (element_list_ c)); [reflexivity|].
  destruct (Cache_full c); [destruct (element_list_ c)|]; reflexivity.
Qed.

Lemma Cache_step_max_size (c : Cache) (o : CacheOp) :
  max_size_ (Cache_step c o) = max_size_ c.
Proof.
  destruct o as [key|key object]; unfold Cache_step.
  - unfold Cache_Get. destruct (lookup key (element_list_ c)); reflexivity.
  - apply Cache_Add_max_size.
Qed.

Lemma DoLRU_within_capacity (key : hash_t) (v : Shape) (c : Cache) :
  lookup key (element_list_ c) = Some v ->
  within_capacity c -> within_capacity (DoLRU key v c).
Proof.
  unfold within_capacity. intros Hhit Hc. simpl.
  pose proof (erase_length_hit key (element_list_ c) Hhit). lia.
Qed.

Lemma Cache_Add_elements_miss (key : hash_t) (object : Shape) (c : Cache) :
  lookup key (element_list_ c) = None ->
  element_list_ (snd (Cache_Add key object c))
  = if Cache_full c then
      match element_list_ c with
      | [] => []
      | _ :: _ => (key, object) :: removelast (element_list_ c)
      end
    else (key, object) :: element_list_ c.
Proof.
  intros Hmiss. unfold Cache_Add. rewrite Hmiss.
  destruct (Cache_full c); [|reflexivity].
  destruct (element_list_ c) eqn:Hl; simpl; [exact Hl | reflexivity].
Qed.

(** The bound is kept by every call, whatever the capacity. *)
Lemma Cache_step_within_capacity (c : Cache) (o : CacheOp) :
  within_capacity c -> within_capacity (Cache_step c o).
Proof.
  intros Hc.
  destruct o as [key|key object]; unfold Cache_step.
  - unfold Cache_Get.
    destruct (lookup key (element_list_ c)) as [v|] eqn:Hl; simpl.
    + apply DoLRU_within_capacity; assumption.
    + exact Hc.
  - destruct (lookup key (element_list_ c)) as [v|] eqn:Hl.
    + unfold Cache_Add. rewrite Hl. simpl.
      apply DoLRU_within_capacity; assumption.
    + unfold within_capacity in *.
      rewrite Cache_Add_max_size, (Cache_Add_elements_miss _ _ _ Hl).
      unfold Cache_full.
      destruct (max_size_ c <=? Z.of_nat (List.length (element_list_ c)))%Z
        eqn:Hfull.
      * revert Hc. generalize (max_size_ c). clear Hfull Hl.
        destruct (element_list_ c) as [|e rest]; intros m Hc.
        -- exact Hc.
        -- assert (Hne : e :: rest <> []) by discriminate.
           pose proof (removelast_shorter Hne) as Hlen.
           change (List.length ((key, object) :: removelast (e :: rest)))
             with (S (List.length (removelast (e :: rest)))).
           rewrite Hlen. exact Hc.
      * apply Z.leb_gt in Hfull. simpl List.length. lia.
Qed.

Lemma Cache_run_within_capacity (ops : list CacheOp) (c : Cache) :
  within_capacity c ->
  max_size_ (Cache_run ops c) = max_size_ c /\
  within_capacity (Cache_run ops c).
Proof.
  revert c.
  induction ops as [|o rest IH]; intros c Hc; simpl.
  - split; [reflexivity | exact Hc].
  - destruct (IH (Cache_step c o)) as [Hm Hw].
    + apply Cache_step_within_capacity; assumption.
    + rewrite Cache_step_max_size in Hm. split; assumption.
Qed.

(** Every entry of a cache was there at the start or has been added. *)
Lemma Cache_step_entries (c : Cache) (o : CacheOp) (k : hash_t) (v : Shape) :
  In (k, v) (element_list_ (Cache_step c o)) ->
  In (k, v) (element_list_ c) \/ o = OpAdd k v.
Proof.
  assert (Hlru : forall (key : hash_t) (x : Shape),
            lookup key (element_list_ c) = Some x ->
            In (k, v) (element_list_ (DoLRU key x c)) ->
            In (k, v) (element_list_ c)).
  { intros key x Hl [H|H].
    - injection H as <- <-. apply lookup_In. exact Hl.
    - apply (erase_In _ _ _ H). }
  destruct o as [key|key object]; unfold Cache_step.
  - unfold Cache_Get.
    destruct (lookup key (element_list_ c)) as [x|] eqn:Hl; simpl.
    + intros H. left. exact (Hlru key x Hl H).
    + intros H. left. exact H.
  - destruct (lookup key (element_list_ c)) as [x|] eqn:Hl.
    + unfold Cache_Add. rewrite Hl. simpl.
      intros H. left. exact (Hlru key x Hl H).
    + rewrite (Cache_Add_elements_miss _ _ _ Hl).
      destruct (Cache_full c).
      * destruct (element_list_ c) as [|e rest] eqn:Hlist.
        -- intros [].
        -- intros [H|H].
           ++ injection H as <- <-. right. reflexivity.
           ++ left. apply removelast_In. exact H.
      * intros [H|H].
        -- injection H as <- <-. right. reflexivity.
        -- left. exact H.
Qed.

Lemma Cache_run_entries (ops : list CacheOp) (c : Cache) (k : hash_t)
    (v : Shape) :
  In (k, v) (element_list_ (Cache_run ops c)) ->
  In (k, v) (element_list_ c) \/ In (OpAdd k v) ops.
Proof.
  revert c.
  induction ops as [|o rest IH]; intros c H; simpl in H.
  - left. exact H.
  - destruct (IH _ H) as [H1|H1].
    + destruct (Cache_step_entries _ _ _ _ H1) as [H2|H2].
      * left. exact H2.
      * right. left. exact H2.
    + right. right. exact H1.
Qed.

(** Among keys that are all cached there are no more than entries. *)
Lemma some_key_misses (keys : list hash_t) (l : list (hash_t * Shape)) :
  NoDup keys ->
  List.length l < List.length keys ->
  exists k, In k keys /\ lookup k l = None.
Proof.
  intros Hnd Hlen.
  assert (Hdec : (forall k, In k keys -> lookup k l <> None) \/
                 (exists k, In k keys /\ lookup k l = None)).
  { clear Hnd Hlen.
    induction keys as [|k rest IH].
    - left. intros k [].
    - destruct (lookup k l) as [v|] eqn:Hl.
      + destruct IH as [IH|(k' & Hin & Hk')].
        * left. intros k' [<-|Hin]; [rewrite Hl; discriminate | apply IH, Hin].
        * right. exists k'. split; [right; exact Hin | exact Hk'].
      + right. exists k. split; [left; reflexivity | exact Hl]. }
  destruct Hdec as [Hall|Hex]; [|exact Hex].
  exfalso.
  assert (Hincl : incl keys (map fst l)).
  { intros k Hin.
    destruct (lookup k l) as [v|] eqn:Hl.
    - apply lookup_In in Hl. apply (in_map fst) in Hl. exact Hl.
    - exfalso. exact (Hall k Hin Hl). }
  pose proof (NoDup_incl_length Hnd Hincl) as Hle.
  rewrite length_map in Hle. lia.
Qed.

Lemma Cache_Get_fst (key : hash_t) (c : Cache) :
  fst (Cache_Get key c) = lookup key (element_list_ c).
Proof.
  unfold Cache_Get. destruct (lookup key (element_list_ c)); reflexivity.
Qed.

Lemma to_size_t_nonneg (z : Z) : (0 <= to_size_t z)%Z.
Proof. unfold to_size_t. apply Z.mod_pos_bound. reflexivity. Qed.

(** C6: the capacity of the shape cache comes from the configuration value
    LTC_IR_SHAPE_CACHE_SIZE and is 4096 when that is not set.  Whatever the
    configured capacity, the cache never holds more entries than its
    capacity, so of more distinct keys than the capacity, all of them added,
    at least one is missed by a later [Get]; and a [Get] that hits returns a
    shape that was added under that key. *)
Theorem ShapeCache_bounded :
  (forall w : World,
     static_cache w = None ->
     exists c,
       static_cache (snd (GetShapeCache w)) = Some c /\
       element_list_ c = [] /\
       (env w "LTC_IR_SHAPE_CACHE_SIZE" = None -> max_size_ c = 4096%Z) /\
       (forall n : Z,
          env w "LTC_IR_SHAPE_CACHE_SIZE" = Some n ->
          max_size_ c = to_size_t n))
  /\
  (forall (configured : Z) (ops : list CacheOp),
     within_capacity (Cache_run ops (Cache_new (to_size_t configured))) /\
     max_size_ (Cache_run ops (Cache_new (to_size_t configured)))
       = to_size_t configured)
  /\
  (forall (configured : Z) (ops : list CacheOp) (keys : list hash_t),
     NoDup keys ->
     (forall k, In k keys -> exists v, In (OpAdd k v) ops) ->
     (to_size_t configured < Z.of_nat (List.length keys))%Z ->
     exists k,
       In k keys /\
       fst (Cache_Get k (Cache_run ops (Cache_new (to_size_t configured))))
         = None)
  /\
  (forall (capacity : Z) (ops : list CacheOp) (k : hash_t) (s : Shape),
     fst (Cache_Get k (Cache_run ops (Cache_new capacity))) = Some s ->
     In (OpAdd k s) ops).
Proof.
  assert (Hbound : forall (configured : Z) (ops : list CacheOp),
     within_capacity (Cache_run ops (Cache_new (to_size_t configured))) /\
     max_size_ (Cache_run ops (Cache_new (to_size_t configured)))
       = to_size_t configured).
  { intros configured ops.
    destruct (@Cache_run_within_capacity ops
                (Cache_new (to_size_t configured))) as [Hm Hw].
    - unfold within_capacity. simpl. apply to_size_t_nonneg.
    - split; [exact Hw | exact Hm]. }
  split; [|split; [|split]].
  - intros w Hstatic. exists (shape_cache w).
    split; [reflexivity|].
    unfold shape_cache, GetEnvInt. rewrite Hstatic.
    split; [reflexivity|]. split.
    + intros ->. reflexivity.
    + intros n ->. reflexivity.
  - exact Hbound.
  - intros configured ops keys Hnd _ Hlen.
    destruct (Hbound configured ops) as [Hw Hm].
    unfold within_capacity in Hw. rewrite Hm in Hw.
    destruct (@some_key_misses keys
                (element_list_
                   (Cache_run ops (Cache_new (to_size_t configured)))) Hnd)
      as (k & Hin & Hk).
    + lia.
    + exists k. split; [exact Hin|]. rewrite Cache_Get_fst. exact Hk.
  - intros capacity ops k s H.
    rewrite Cache_Get_fst in H. apply lookup_In in H.
    destruct (Cache_run_entries _ _ _ _ H) as [[]|Hadd].
    exact Hadd.
Qed.

End CacheBound.

(* ================================================================== *)
(** ** Further properties of the hashing                               *)
(* ================================================================== *)

Section MoreHashing.

Context {U : LazyTensorsUtil}.

(** X1: [OperandHashes] of no operands is the seed, and over a list in two
    parts it is [OperandHashes] of the second part seeded with
    [OperandHashes] of the first. *)
Theorem OperandHashes_app :
  (forall seed : hash_t, OperandHashes [] seed = seed) /\
  (forall (l1 l2 : OpList) (seed : hash_t),
     OperandHashes (l1 ++ l2) seed
     = OperandHashes l2 (OperandHashes l1 seed)).
Proof.
  split.
  - reflexivity.
  - unfold OperandHashes. intros l1.
    induction l1 as [|operand rest IH]; intros l2 seed; simpl.
    + reflexivity.
    + apply IH.
Qed.

Lemma OperandHashes_snoc (operands : OpList) (v : Value) (seed : hash_t) :
  OperandHashes (operands ++ [v]) seed
  = HashCombine (OperandHashes operands seed) (Value_hash v).
Proof.
  unfold OperandHashes. revert seed.
  induction operands as [|operand rest IH]; intros seed; simpl.
  - reflexivity.
  - apply IH.
Qed.

Lemma TsNode_ctor_accepts (o : OpKind) (operands : OpList) (s : Shape)
    (n : nat) (seed : hash_t) (w : World) :
  ctor_args_ok n operands = true ->
  TsNode_ctor o operands s n seed w =
  (Ok {| base := {| op_ := o; operands_ := operands; num_outputs_ := n;
                    node_hash_ := HashCombine (OpKind_hash o) seed;
                    dag_hash_ := OperandHashes operands
                                   (HashCombine (OpKind_hash o) seed);
                    metadata_ := scope_metadata w |};
         shape_ := s |}, w).
Proof. intros Hok. rewrite TsNode_ctor_run, Hok. reflexivity. Qed.

Lemma ctor_args_ok_app (n : nat) (l1 l2 : OpList) :
  ctor_args_ok n (l1 ++ l2) = true ->
  ctor_args_ok n [] = true /\ ctor_args_ok n l1 = true.
Proof.
  unfold ctor_args_ok. rewrite forallb_app. simpl.
  intros H. apply andb_true_iff in H. destruct H as [Hn H].
  apply andb_true_iff in H. destruct H as [H1 _].
  rewrite Hn, H1. split; reflexivity.
Qed.

(** X2: when the constructor accepts an operand list with one more operand
    at its end, it accepts the list without it and the empty list, and of
    the three nodes: the node hash is the same, so it does not depend on the
    operands; the hash() of the node without operands is its node hash; and
    the hash() of the node with the additional operand is the hash() of the
    node without it combined with the hash of that operand. *)
Theorem TsNode_ctor_hash_by_operand (o : OpKind) (s : Shape) (n : nat)
    (seed : hash_t) (w : World) (operands : OpList) (v : Value) :
  ctor_args_ok n (operands ++ [v]) = true ->
  exists none this more,
    TsNode_ctor o [] s n seed w = (Ok none, w) /\
    TsNode_ctor o operands s n seed w = (Ok this, w) /\
    TsNode_ctor o (operands ++ [v]) s n seed w = (Ok more, w) /\
    hash none = node_hash none /\
    node_hash this = node_hash none /\
    node_hash more = node_hash none /\
    hash more = HashCombine (hash this) (Value_hash v).
Proof.
  intros Hok.
  destruct (ctor_args_ok_app _ _ _ Hok) as [Hnil Hops].
  do 3 eexists.
  split; [apply TsNode_ctor_accepts; exact Hnil|].
  split; [apply TsNode_ctor_accepts; exact Hops|].
  split; [apply TsNode_ctor_accepts; exact Hok|].
  unfold hash, dag_hash, node_hash; simpl.
  split; [reflexivity|]. split; [reflexivity|]. split; [reflexivity|].
  apply OperandHashes_snoc.
Qed.

(** The constructor that takes a shape function is the base construction
    followed by a resolution of the node built without a shape. *)
Lemma TsNode_ctor_fn_unfold (o : OpKind) (operands : OpList) (f : ShapeFn)
    (n : nat) (seed : hash_t) (w : World) :
  TsNode_ctor_fn o operands f n seed w
  = if ctor_args_ok n operands
    then SetShapeDeferred (unresolved o operands n seed (scope_metadata w)) f w
    else (Raise InvalidArgument, w).
Proof.
  unfold TsNode_ctor_fn. unfold bind at 1. rewrite TsNode_ctor_run.
  destruct (ctor_args_ok n operands); reflexivity.
Qed.

Lemma unresolved_hash (o : OpKind) (ops1 ops2 : OpList) (n1 n2 : nat)
    (seed : hash_t) (md1 md2 : MetaData) :
  map Value_hash ops1 = map Value_hash ops2 ->
  hash (unresolved o ops1 n1 seed md1) = hash (unresolved o ops2 n2 seed md2).
Proof.
  intros Hops. unfold hash, dag_hash; simpl.
  rewrite !OperandHashes_fold_left, !fold_left_step_map, Hops.
  reflexivity.
Qed.

(** X3: with a shape cache of positive capacity, two nodes built one after
    the other by the constructor that takes a shape function, with the same
    op, the same seed and operands of the same hashes, share one shape
    inference: in all at most one shape function is called, and when the
    first construction returns and the arguments of the second are accepted,
    the second returns as well, without calling its shape function (even one
    that would throw), with the same shape and the same hash(). *)
Theorem TsNode_ctor_fn_shares_inference (o : OpKind) (ops1 ops2 : OpList)
    (f g : ShapeFn) (n1 n2 : nat) (seed : hash_t) (w : World) :
  map Value_hash ops1 = map Value_hash ops2 ->
  (0 < max_size_ (shape_cache w))%Z ->
  let r := (a <- TsNode_ctor_fn o ops1 f n1 seed ;;
            b <- TsNode_ctor_fn o ops2 g n2 seed ;;
            ret (a, b))%ltc w in
  shape_fn_calls (snd r) <= S (shape_fn_calls w) /\
  (ctor_args_ok n2 ops2 = true ->
   forall (a : TsNode) (w1 : World),
     TsNode_ctor_fn o ops1 f n1 seed w = (Ok a, w1) ->
     exists b,
       fst r = Ok (a, b) /\
       shape b = shape a /\
       hash b = hash a /\
       shape_fn_calls (snd r) = shape_fn_calls w1).
Proof.
  intros Hops Hpos r.
  assert (Hr : r = match TsNode_ctor_fn o ops1 f n1 seed w with
                   | (Ok a, w1) =>
                       match TsNode_ctor_fn o ops2 g n2 seed w1 with
                       | (Ok b, w2) => (Ok (a, b), w2)
                       | (Raise e, w2) => (Raise e, w2)
                       end
                   | (Raise e, w1) => (Raise e, w1)
                   end) by reflexivity.
  rewrite Hr. clear Hr r.
  destruct (TsNode_ctor_fn o ops1 f n1 seed w) as [[a|e] w1] eqn:H1.
  - rewrite TsNode_ctor_fn_unfold in H1.
    destruct (ctor_args_ok n1 ops1); [|discriminate H1].
    destruct (SetShapeDeferred_Ok_cached _ _ _ H1) as (Hb & Hc & Hcalls).
    specialize (Hc Hpos).
    rewrite (unresolved_hash o ops1 ops2 n1 n2 seed
               (scope_metadata w) (scope_metadata w1) Hops) in Hc.
    rewrite TsNode_ctor_fn_unfold.
    destruct (ctor_args_ok n2 ops2).
    + rewrite SetShapeDeferred_unfold, (GetOpShape_hit _ g w1 Hc).
      simpl. split; [exact Hcalls|].
      intros _ a' w1' Heq. injection Heq as <- <-.
      eexists. split; [reflexivity|].
      split; [reflexivity|]. split; [|reflexivity].
      unfold hash, dag_hash. rewrite Hb.
      symmetry.
      apply (unresolved_hash o ops1 ops2 n1 n2 seed
               (scope_metadata w) (scope_metadata w1) Hops).
    + simpl. split; [exact Hcalls|].
      intros Habs. discriminate Habs.
  - simpl. split.
    + rewrite TsNode_ctor_fn_unfold in H1.
      destruct (ctor_args_ok n1 ops1).
      * rewrite SetShapeDeferred_unfold in H1.
        destruct (cached w (hash (unresolved o ops1 n1 seed
                                    (scope_metadata w))))
          as [s|] eqn:Hc.
        -- rewrite (GetOpShape_hit _ f w Hc) in H1. discriminate H1.
        -- rewrite (GetOpShape_miss _ f w Hc) in H1.
           destruct (f tt); [discriminate H1|].
           injection H1 as _ <-. simpl. lia.
      * injection H1 as _ <-. lia.
    + intros _ a w1' Heq. discriminate Heq.
Qed.

End MoreHashing.

(* ================================================================== *)
(** ** Further properties of shape access and resolution               *)
(* ================================================================== *)

Section MoreShapes.

Context {U : LazyTensorsUtil}.

(** X4: when [TsNodeSetShapeDeferred] returns, the node was a [TsNode] and
    still is one, with the same base fields; [GetShapeFromTsNode] on it then
    returns the resolved shape, which is the shape that was cached under the
    node's hash or else what the shape function returned, and which, when
    the shape cache has a positive capacity, is in the cache under that hash
    afterwards. *)
Theorem TsNodeSetShapeDeferred_then_GetShape (n n' : Node) (f : ShapeFn)
    (w w' : World) :
  TsNodeSetShapeDeferred n f w = (Ok n', w') ->
  exists ts ts',
    dynamic_cast_TsNode n = Some ts /\
    dynamic_cast_TsNode n' = Some ts' /\
    Node_base n' = Node_base n /\
    GetShapeFromTsNode n' = Ok (shape ts') /\
    ((0 < max_size_ (shape_cache w))%Z ->
     cached w' (Node_hash n') = Some (shape ts')) /\
    Ok (shape ts') = match cached w (Node_hash n) with
                     | Some s => Ok s
                     | None => f tt
                     end.
Proof.
  destruct n as [ts|b]; unfold TsNodeSetShapeDeferred; simpl.
  - intros H.
    assert (Hrun : exists ts', SetShapeDeferred ts f w = (Ok ts', w') /\
                               n' = Node_TsNode ts').
    { unfold bind in H.
      destruct (SetShapeDeferred ts f w) as [[ts'|e] w1]; [|discriminate H].
      unfold ret in H. injection H as <- <-. exists ts'. split; reflexivity. }
    destruct Hrun as (ts' & Hrun & ->).
    exists ts, ts'.
    destruct (SetShapeDeferred_Ok_cached _ _ _ Hrun) as (Hb & Hc & _).
    split; [reflexivity|]. split; [reflexivity|].
    split; [exact Hb|]. split; [reflexivity|].
    split.
    + intros Hpos. unfold Node_hash; simpl. rewrite Hb. exact (Hc Hpos).
    + change (Node_hash (Node_TsNode ts)) with (hash ts).
      rewrite SetShapeDeferred_unfold in Hrun.
      destruct (cached w (hash ts)) as [s|] eqn:Hcw.
      * rewrite (GetOpShape_hit ts f w Hcw) in Hrun.
        injection Hrun as <- _. reflexivity.
      * rewrite (GetOpShape_miss ts f w Hcw) in Hrun.
        destruct (f tt) as [s|e]; [|discriminate Hrun].
        injection Hrun as <- _. reflexivity.
  - intros H. discriminate H.
Qed.

(** X5: what [GetShapeFromTsOutput] and [GetShapeFromTsValue] return for an
    output of a node is the shape that [GetShapeFromTsNode] returns for the
    node when that is not a tuple (and then the index is 0), and the element
    at the index when it is a tuple; they never succeed on a node for which
    [GetShapeFromTsNode] fails. *)
Theorem GetShapeFromTsOutput_of_node_shape (n : Node) (i : nat) (r : Shape) :
  GetShapeFromTsOutput {| node := n; index := i |} = Ok r \/
  GetShapeFromTsValue {| node := n; index := i |} = Ok r ->
  exists s,
    GetShapeFromTsNode n = Ok s /\
    ((IsTuple s = false /\ i = 0 /\ r = s) \/
     (exists elems, s = TupleShape elems /\ nth_error elems i = Some r)).
Proof.
  unfold GetShapeFromTsOutput, GetShapeFromTsValue, GetShapeFromTsNode; simpl.
  destruct (dynamic_cast_TsNode n) as [ts|].
  - intros H. assert (Hat : shape_at ts i = Ok r) by (destruct H; assumption).
    clear H. exists (shape ts). split; [reflexivity|].
    unfold shape_at, shape in *.
    destruct (shape_ ts) as [t dims|elems]; simpl in Hat.
    + left. unfold LTC_CHECK_EQ in Hat.
      destruct (Nat.eqb i 0) eqn:Hi; simpl in Hat; [|discriminate Hat].
      apply Nat.eqb_eq in Hi. injection Hat as <-.
      split; [reflexivity|]. split; [exact Hi | reflexivity].
    + right. exists elems. split; [reflexivity|].
      destruct (nth_error elems i) as [e|]; [|discriminate Hat].
      injection Hat as <-. reflexivity.
  - intros [H|H]; discriminate H.
Qed.

Lemma map_nth_error_seq {A B : Type} (g : A -> B) (d : B) (l : list A) :
  map (fun i => match nth_error l i with
                | Some e => g e
                | None => d
                end) (seq 0 (List.length l))
  = map g l.
Proof.
  induction l as [|a rest IH]; simpl.
  - reflexivity.
  - f_equal. rewrite <- seq_shift, map_map. simpl. exact IH.
Qed.

(** X6: for a node whose shape is a tuple, [shape(index)] over the indices
    below the arity returns the elements of the tuple, each and in order: the
    tuple can be put together again from the shapes of the outputs. *)
Theorem shape_at_all_outputs (this : TsNode) (elems : list Shape) :
  shape this = TupleShape elems ->
  map (shape_at this) (seq 0 (List.length elems)) = map Ok elems.
Proof.
  unfold shape. intros Hs.
  rewrite <- (map_nth_error_seq (@Ok Shape) (Raise IndexOutOfRange) elems).
  apply map_ext. intros i.
  unfold shape_at. rewrite Hs. reflexivity.
Qed.

(** X7: a node that the constructor without a shape returns has the
    default-constructed shape: [shape()] and [GetShapeFromTsNode] return it
    without an error, [shape(0)] returns it as well, and [shape(index)] fails
    with InvalidArgument for every other index, also for an index below
    num_outputs. *)
Theorem unresolved_node_shape (o : OpKind) (operands : OpList) (n : nat)
    (seed : hash_t) (w w' : World) (this : TsNode) :
  TsNode_ctor_noshape o operands n seed w = (Ok this, w') ->
  num_outputs this = n /\
  shape this = Shape_default /\
  GetShapeFromTsNode (Node_TsNode this) = Ok Shape_default /\
  shape_at this 0 = Ok Shape_default /\
  forall i : nat, shape_at this (S i) = Raise InvalidArgument.
Proof.
  unfold TsNode_ctor_noshape. intros H.
  apply TsNode_ctor_Ok_inv in H. destruct H as (_ & _ & ->).
  repeat split.
Qed.

(** The world after a resolution, by cases on the cache and on the shape
    function. *)
Lemma SetShapeDeferred_world (this : TsNode) (f : ShapeFn) (w : World) :
  snd (SetShapeDeferred this f w)
  = match cached w (hash this) with
    | Some s => set_static_cache w (DoLRU (hash this) s (shape_cache w))
    | None =>
        match f tt with
        | Ok s =>
            set_static_cache (tick w)
              (snd (Cache_Add (hash this) s (shape_cache w)))
        | Raise _ => tick (set_static_cache w (shape_cache w))
        end
    end.
Proof.
  rewrite SetShapeDeferred_unfold.
  destruct (cached w (hash this)) as [s|] eqn:Hc.
  - rewrite (GetOpShape_hit this f w Hc). reflexivity.
  - rewrite (GetOpShape_miss this f w Hc).
    destruct (f tt); reflexivity.
Qed.

(** X8: a deferred resolution, whether it returns or raises, leaves the
    environment, the dynamic-shape flag and the scope metadata as they were;
    afterwards the static cache exists, with the capacity it had or would
    have had before; and the count of shape-function calls has grown by zero
    or one. *)
Theorem SetShapeDeferred_world_frame (this : TsNode) (f : ShapeFn)
    (w : World) :
  let w' := snd (SetShapeDeferred this f w) in
  env w' = env w /\
  dynamic_mode w' = dynamic_mode w /\
  scope_metadata w' = scope_metadata w /\
  static_cache w' = Some (shape_cache w') /\
  max_size_ (shape_cache w') = max_size_ (shape_cache w) /\
  shape_fn_calls w <= shape_fn_calls w' <= S (shape_fn_calls w).
Proof.
  intros w'. subst w'. rewrite SetShapeDeferred_world.
  destruct (cached w (hash this)) as [s|]; [|destruct (f tt) as [s|e]];
    (split; [reflexivity|]); (split; [reflexivity|]);
    (split; [reflexivity|]); (split; [reflexivity|]); split.
  - reflexivity.
  - simpl. lia.
  - rewrite shape_cache_set_static_cache, Cache_Add_max_size.
    apply f_equal, shape_cache_tick.
  - simpl. lia.
  - reflexivity.
  - simpl. lia.
Qed.

(** X9: the capacity of the shape cache is read from the environment once.
    After a first resolution, a change of the environment does not change
    the cache, and later resolutions run with the capacity fixed at the
    first use; a call of [GetShapeCache] on an existing cache changes
    nothing. *)
Theorem shape_cache_capacity_read_once (this that : TsNode) (f g : ShapeFn)
    (w : World) (e : string -> option Z) :
  let w1 := snd (SetShapeDeferred this f w) in
  shape_cache (set_env w1 e) = shape_cache w1 /\
  max_size_ (shape_cache (snd (SetShapeDeferred that g (set_env w1 e))))
    = max_size_ (shape_cache w) /\
  GetShapeCache (snd (GetShapeCache w)) = (Ok tt, snd (GetShapeCache w)).
Proof.
  intros w1.
  assert (Hstatic : static_cache w1 = Some (shape_cache w1)).
  { subst w1. rewrite SetShapeDeferred_world.
    destruct (cached w (hash this)) as [s|]; [|destruct (f tt)]; reflexivity. }
  assert (Hsame : shape_cache (set_env w1 e) = shape_cache w1).
  { unfold shape_cache at 1. simpl. rewrite Hstatic. reflexivity. }
  split; [exact Hsame|]. split; [|reflexivity].
  assert (Hmax : forall (n : TsNode) (h : ShapeFn) (v : World),
            max_size_ (shape_cache (snd (SetShapeDeferred n h v)))
            = max_size_ (shape_cache v)).
  { intros n h v. rewrite SetShapeDeferred_world.
    destruct (cached v (hash n)) as [s|]; [|destruct (h tt)].
    - reflexivity.
    - rewrite shape_cache_set_static_cache, Cache_Add_max_size.
      apply f_equal, shape_cache_tick.
    - reflexivity. }
  rewrite Hmax, Hsame. subst w1. apply Hmax.
Qed.

(** X10: all that a deferred resolution does to the shape cache is one [Get]
    for the node's hash, followed by one [Add] under that hash when the [Get]
    missed and the shape function returned: the cache afterwards is the
    cache before with these calls made on it.  So an entry of the cache
    afterwards was there before, or it is the result of the shape function
    under the node's hash, added after a miss; and a cache of positive
    capacity that held no more entries than its capacity still does. *)
Theorem SetShapeDeferred_cache_calls (this : TsNode) (f : ShapeFn)
    (w : World) :
  let w' := snd (SetShapeDeferred this f w) in
  shape_cache w'
    = Cache_run (GetOpShape_cache_calls this f w) (shape_cache w) /\
  (forall (k : hash_t) (v : Shape),
     In (k, v) (cache_entries w') ->
     In (k, v) (cache_entries w) \/
     (k = hash this /\ cached w k = None /\ f tt = Ok v)) /\
  ((0 < max_size_ (shape_cache w))%Z ->
   within_capacity (shape_cache w) ->
   within_capacity (shape_cache w')).
Proof.
  intros w'.
  assert (Hrun : shape_cache w'
            = Cache_run (GetOpShape_cache_calls this f w) (shape_cache w)).
  { subst w'. rewrite SetShapeDeferred_world. unfold GetOpShape_cache_calls.
    destruct (cached w (hash this)) as [s|] eqn:Hc.
    - unfold cached in Hc. simpl. unfold Cache_Get. rewrite Hc. reflexivity.
    - unfold cached in Hc.
      destruct (f tt) as [s|e]; simpl; unfold Cache_Get; rewrite Hc;
        reflexivity. }
  split; [exact Hrun|]. split.
  - intros k v Hin. unfold cache_entries in *. rewrite Hrun in Hin.
    destruct (Cache_run_entries _ _ _ _ Hin) as [Hold|Hnew].
    + left. exact Hold.
    + right. unfold GetOpShape_cache_calls in Hnew.
      destruct (cached w (hash this)) as [s|] eqn:Hc.
      * destruct Hnew as [Hnew|[]]. discriminate Hnew.
      * destruct (f tt) as [s|e].
        -- destruct Hnew as [Hnew|[Hnew|[]]]; [discriminate Hnew|].
           injection Hnew as <- <-.
           split; [reflexivity|]. split; [exact Hc | reflexivity].
        -- destruct Hnew as [Hnew|[]]. discriminate Hnew.
  - intros Hpos Hwithin. rewrite Hrun.
    apply Cache_run_within_capacity; assumption.
Qed.

End MoreShapes.

(* ================================================================== *)
(** ** Printing                                                        *)
(* ================================================================== *)

Section MorePrinting.

Context {U : LazyTensorsUtil}.

Variable OpKind_ToString : OpKind -> string.
Variable EmitShortFrameInfo : list SourceLocation -> string.

Lemma string_app_assoc (a b c : string) :
  ((a ++ b) ++ c)%string = (a ++ (b ++ c))%string.
Proof.
  induction a as [|ch rest IH]; simpl.
  - reflexivity.
  - rewrite IH. reflexivity.
Qed.

(** X11: the text of a node starts with its shape, and a deferred resolution
    changes nothing else in it: what follows the shape is the same before
    and after.  For a node with at most one output and an empty scope the
    text is the shape, a space, the op and the frame information, with no
    num_outputs and no scope part. *)
Theorem ToString_shape_prefix (this : TsNode) :
  (exists tail : string,
     forall (f : ShapeFn) (w : World),
       let this' := after this (fst (SetShapeDeferred this f w)) in
       ToString OpKind_ToString EmitShortFrameInfo this
         = (Shape_ToString (shape this) ++ tail)%string /\
       ToString OpKind_ToString EmitShortFrameInfo this'
         = (Shape_ToString (shape this') ++ tail)%string)
  /\
  (num_outputs this <= 1 ->
   scope (metadata this) = ""%string ->
   ToString OpKind_ToString EmitShortFrameInfo this
   = (Shape_ToString (shape this) ++ " " ++ OpKind_ToString (op this)
      ++ EmitShortFrameInfo (frame_info (metadata this)))%string).
Proof.
  assert (Htail : forall n : TsNode,
    ToString OpKind_ToString EmitShortFrameInfo n
    = (Shape_ToString (shape n)
       ++ (" " ++ OpKind_ToString (op n)
           ++ (if (1 <? num_outputs n)%nat
               then ", num_outputs=" ++ size_t_to_string (num_outputs n)
               else "")
           ++ (if String.eqb (scope (metadata n)) ""
               then ""
               else ", scope=" ++ scope (metadata n))
           ++ EmitShortFrameInfo (frame_info (metadata n))))%string).
  { intros n. unfold ToString.
    destruct (1 <? num_outputs n)%nat;
      destruct (String.eqb (scope (metadata n)) "");
      repeat rewrite string_app_assoc; simpl; reflexivity. }
  split.
  - eexists. intros f w this'.
    split; [apply Htail|].
    rewrite Htail.
    assert (Hb : base this' = base this).
    { subst this'. rewrite SetShapeDeferred_unfold.
      destruct (GetOpShape this f w) as [[s|e] w']; reflexivity. }
    unfold op, num_outputs, metadata. rewrite Hb. reflexivity.
  - intros Hn Hscope. rewrite Htail.
    assert (H1 : (1 <? num_outputs this)%nat = false)
      by (apply Nat.ltb_ge; exact Hn).
    rewrite H1, Hscope. reflexivity.
Qed.

End MorePrinting.

(* ================================================================== *)
(** ** Where the errors of a resolution come from                      *)
(* ================================================================== *)

Section ErrorSources.

Context {U : LazyTensorsUtil}.

Lemma SetShapeDeferred_Raise_inv (this : TsNode) (f : ShapeFn) (w w' : World)
    (e : Error) :
  SetShapeDeferred this f w = (Raise e, w') ->
  cached w (hash this) = None /\ f tt = Raise e /\
  cache_entries w' = cache_entries w.
Proof.
  rewrite SetShapeDeferred_unfold.
  destruct (cached w (hash this)) as [s|] eqn:Hc.
  - rewrite (GetOpShape_hit this f w Hc). intros H. discriminate H.
  - rewrite (GetOpShape_miss this f w Hc).
    destruct (f tt) as [s|e']; intros H; [discriminate H|].
    injection H as <- <-. repeat split.
Qed.

(** X12: where the errors come from.  When [SetShapeDeferred] raises, the
    cache had no entry for the node's hash and the error is the one the
    shape function raised.  When the constructor that takes a shape function
    raises, either its arguments were rejected, the error is InvalidArgument
    and the process state is untouched, or the error is the shape
    function's.  When [TsNodeSetShapeDeferred] raises, either the node is
    not a [TsNode], the error is the failed cast and the process state is
    untouched, or again the error is the shape function's.  In each case the
    entries of the shape cache are as before. *)
Theorem resolution_error_sources (f : ShapeFn) (w w' : World) (e : Error) :
  (forall this : TsNode,
     SetShapeDeferred this f w = (Raise e, w') ->
     cached w (hash this) = None /\ f tt = Raise e /\
     cache_entries w' = cache_entries w)
  /\
  (forall (o : OpKind) (operands : OpList) (n : nat) (seed : hash_t),
     TsNode_ctor_fn o operands f n seed w = (Raise e, w') ->
     (ctor_args_ok n operands = false /\ e = InvalidArgument /\ w' = w) \/
     (ctor_args_ok n operands = true /\ f tt = Raise e /\
      cache_entries w' = cache_entries w))
  /\
  (forall n : Node,
     TsNodeSetShapeDeferred n f w = (Raise e, w') ->
     (dynamic_cast_TsNode n = None /\ e = Expected_TsNode /\ w' = w) \/
     (exists ts, dynamic_cast_TsNode n = Some ts /\
                 cached w (hash ts) = None /\ f tt = Raise e /\
                 cache_entries w' = cache_entries w)).
Proof.
  split; [|split].
  - intros this H. exact (SetShapeDeferred_Raise_inv _ _ _ H).
  - intros o operands n seed H.
    rewrite TsNode_ctor_fn_unfold in H.
    destruct (ctor_args_ok n operands).
    + right.
      destruct (SetShapeDeferred_Raise_inv _ _ _ H) as (_ & Hf & Hentries).
      split; [reflexivity|]. split; assumption.
    + left. injection H as <- <-. repeat split.
  - intros n H. destruct n as [ts|b]; unfold TsNodeSetShapeDeferred in H;
      simpl in H.
    + right. exists ts. split; [reflexivity|].
      apply SetShapeDeferred_Raise_inv.
      unfold bind in H.
      destruct (SetShapeDeferred ts f w) as [[ts'|e'] w1].
      * discriminate H.
      * injection H as <- <-. reflexivity.
    + left. unfold raise in H. injection H as <- <-. repeat split.
Qed.

End ErrorSources.

Lemma TsNode_ctor_hashes_witness :
  let f : ShapeFn := fun _ => Ok f32_4x4 in
  let r := @TsNode_ctor_fn Mix64 op_add A_A f 1 5%Z fresh_world in
  r = (Ok node_B, snd r) /\
  @node_hash Mix64 node_B = 7402276771781286675%Z /\
  @dag_hash Mix64 node_B = 3450586785716643362%Z /\
  exists this,
    @TsNode_ctor Mix64 op_add A_A f32_4x4 1 5%Z fresh_world
    = (Ok this, fresh_world).
Proof.
  intros f r.
  assert (H : r = (Ok node_B, snd r)) by reflexivity.
  split; [exact H|].
  destruct (TsNode_ctor_hashes (U:=Mix64) op_add A_A 1 5%Z fresh_world)
    as (_ & _ & H3 & H4 & _).
  destruct (H3 f node_B (snd r) H) as [Hn Hd].
  split; [|split].
  - rewrite Hn. vm_compute. reflexivity.
  - rewrite Hd. vm_compute. reflexivity.
  - exact (H4 eq_refl f32_4x4).
Defined.

(** C1 (as stated) fails: for B = add(A, A) the dag hash that the
    constructor stores is the fold itself, and combining node_hash with the
    fold once more gives another value. *)
Lemma TsNode_ctor_dag_hash_is_not_recombined :
  @TsNode_ctor Mix64 op_add A_A f32_4x4 1 5%Z fresh_world
    = (Ok node_B, fresh_world) /\
  @dag_hash Mix64 node_B = 3450586785716643362%Z /\
  @HashCombine Mix64 (node_hash node_B)
     (fold_left step A_A (node_hash node_B)) = 14157457237900121808%Z /\
  @dag_hash Mix64 node_B <>
  @HashCombine Mix64 (node_hash node_B)
     (fold_left step A_A (node_hash node_B)).
Proof.
  split; [reflexivity|].
  split; [vm_compute; reflexivity|].
  split; [vm_compute; reflexivity|].
  vm_compute. discriminate.
Qed.

Lemma TsNode_shape_at_index_witness :
  let n := @triple_node Mix64 1%Z in
  @shape_at Mix64 n 0 = Ok f32_4x4 /\
  @shape_at Mix64 n 1 = Ok f32_2x8 /\
  @shape_at Mix64 n 2 = Ok s64_4 /\
  @shape_at Mix64 n 3 = Raise IndexOutOfRange /\
  @shape_at Mix64 leaf_A 0 = Ok f32_4x4 /\
  @shape_at Mix64 leaf_A 1 = Raise InvalidArgument.
Proof.
  intros n.
  assert (Ht : forall i,
    (i < 3 -> exists e,
       nth_error [f32_4x4; f32_2x8; s64_4] i = Some e /\
       @shape_at Mix64 n i = Ok e) /\
    (3 <= i -> @shape_at Mix64 n i = Raise IndexOutOfRange)).
  { intros i.
    exact (proj1 (TsNode_shape_at_index (U:=Mix64) n i)
             [f32_4x4; f32_2x8; s64_4] eq_refl). }
  assert (Hl : forall i,
    (i = 0 -> @shape_at Mix64 leaf_A i = Ok f32_4x4) /\
    (i <> 0 -> @shape_at Mix64 leaf_A i = Raise InvalidArgument)).
  { intros i.
    exact (proj2 (TsNode_shape_at_index (U:=Mix64) leaf_A i) eq_refl). }
  refine (conj _ (conj _ (conj _ (conj _ (conj _ _))))).
  - destruct (proj1 (Ht 0)) as (e & He & ->); [lia|].
    injection He as <-. reflexivity.
  - destruct (proj1 (Ht 1)) as (e & He & ->); [lia|].
    injection He as <-. reflexivity.
  - destruct (proj1 (Ht 2)) as (e & He & ->); [lia|].
    injection He as <-. reflexivity.
  - apply (proj2 (Ht 3)). lia.
  - apply (proj1 (Hl 0)). reflexivity.
  - apply (proj2 (Hl 1)). lia.
Defined.

Lemma non_TsNode_is_rejected_witness :
  let n := @foreign_node Mix64 5%Z in
  let f : ShapeFn := fun _ => Ok f32_4x4 in
  @GetShapeFromTsOutput Mix64 {| node := n; index := 0 |}
    = Raise Expected_TsNode /\
  @GetShapeFromTsValue Mix64 {| node := n; index := 0 |}
    = Raise Expected_TsNode /\
  @GetShapeFromTsNode Mix64 n = Raise Expected_TsNode /\
  @TsNodeSetShapeDeferred Mix64 n f fresh_world
    = (Raise Expected_TsNode, fresh_world).
Proof.
  intros n f.
  apply (non_TsNode_is_rejected (U:=Mix64) n 0 f fresh_world).
  reflexivity.
Defined.

Lemma GetOpHash_shape_dependence_witness :
  (fst (@GetOpHash Mix64 op_constant f32_4x4 17%Z dynamic_world)
     = fst (@GetOpHash Mix64 op_constant f32_2x8 17%Z dynamic_world)) /\
  (fst (@GetOpHash Mix64 op_constant f32_4x4 17%Z fresh_world)
     = Ok (@leaf_hash Mix64 17%Z)) /\
  (exists this,
     @TsNode_ctor_leaf Mix64 op_constant f32_4x4 1 17%Z fresh_world
       = (Ok this, fresh_world) /\
     shape this = f32_4x4).
Proof.
  destruct (GetOpHash_shape_dependence (U:=Mix64) op_constant 17%Z
              dynamic_world) as (Hdyn & _ & _).
  destruct (GetOpHash_shape_dependence (U:=Mix64) op_constant 17%Z
              fresh_world) as (_ & Hstatic & Hbuilt).
  refine (conj _ (conj _ _)).
  - destruct (Hdyn eq_refl) as (_ & Heq & _).
    rewrite (Heq f32_4x4 f32_2x8 eq_refl). reflexivity.
  - destruct (Hstatic eq_refl) as (Hrun & _).
    rewrite Hrun. reflexivity.
  - exact (Hbuilt f32_4x4 1 (le_n 1)).
Defined.

Lemma SetShapeDeferred_memoizes_witness :
  let w1 := snd (@SetShapeDeferred Mix64 node_B0 infer_4x4 fresh_world) in
  (exists w',
     @SetShapeDeferred Mix64 node_B0 infer_4x4 fresh_world
       = (Ok node_B, w') /\
     shape_fn_calls w' = 1 /\
     cached w' (hash node_B0) = Some f32_4x4) /\
  (exists w',
     @SetShapeDeferred Mix64 node_B0 infer_2x8 w1 = (Ok node_B, w') /\
     shape_fn_calls w' = 1 /\
     cached w' (hash node_B0) = Some f32_4x4) /\
  shape_fn_calls
    (snd ((n1 <- @SetShapeDeferred Mix64 node_B0 infer_4x4 ;;
           n2 <- SetShapeDeferred node_B infer_2x8 ;;
           ret (n1, n2))%ltc fresh_world)) <= 1.
Proof.
  intros w1.
  assert (Hpos : (0 < max_size_ (@shape_cache Mix64 fresh_world))%Z)
    by reflexivity.
  destruct (SetShapeDeferred_memoizes (U:=Mix64) node_B0 infer_4x4
              fresh_world) as (_ & Hmiss & Hseq).
  destruct (SetShapeDeferred_memoizes (U:=Mix64) node_B0 infer_2x8 w1)
    as (Hhit & _ & _).
  refine (conj _ (conj _ _)).
  - destruct (Hmiss eq_refl f32_4x4 eq_refl) as (w' & Hrun & Hcalls & Hc).
    exists w'. split; [exact Hrun|]. split; [exact Hcalls | exact (Hc Hpos)].
  - assert (Hc : @cached Mix64 w1 (hash node_B0) = Some f32_4x4)
      by (vm_compute; reflexivity).
    exact (Hhit f32_4x4 Hc).
  - exact (proj1 (Hseq Hpos node_B infer_2x8 eq_refl)).
Defined.

(** C2 (as stated) fails when the capacity of the shape cache is configured
    as 0: nothing is kept in the cache, and two resolutions in sequence, on
    the nodes B0 and B of the same hash and with the same shape function,
    call it twice. *)
Lemma SetShapeDeferred_calls_twice_at_capacity_zero :
  let r := (n1 <- @SetShapeDeferred Mix64 node_B0 infer_4x4 ;;
            n2 <- SetShapeDeferred node_B infer_4x4 ;;
            ret (n1, n2))%ltc zero_capacity_world in
  max_size_ (shape_cache zero_capacity_world) = 0%Z /\
  @hash Mix64 node_B = hash node_B0 /\
  cached zero_capacity_world (hash node_B0) = None /\
  cached (snd (@SetShapeDeferred Mix64 node_B0 infer_4x4 zero_capacity_world))
         (hash node_B0) = None /\
  fst r = Ok (node_B, node_B) /\
  shape_fn_calls (snd r) = 2 /\
  ~ shape_fn_calls (snd r) <= S (shape_fn_calls zero_capacity_world).
Proof.
  intros r.
  assert (Hcalls : shape_fn_calls (snd r) = 2) by (vm_compute; reflexivity).
  split; [reflexivity|]. split; [reflexivity|]. split; [reflexivity|].
  split; [vm_compute; reflexivity|].
  split; [reflexivity|]. split; [exact Hcalls|].
  rewrite Hcalls. simpl. lia.
Qed.

Lemma SetShapeDeferred_again_keeps_shape_witness :
  let w1 := snd (@SetShapeDeferred Mix64 node_B0 infer_4x4 fresh_world) in
  (exists w2,
     @SetShapeDeferred Mix64 node_B infer_2x8 w1 = (Ok node_B, w2) /\
     shape_fn_calls w2 = shape_fn_calls w1) /\
  @shape Mix64
    (after node_B (fst (SetShapeDeferred node_B infer_2x8 fresh_world)))
  = f32_2x8.
Proof.
  intros w1.
  destruct (SetShapeDeferred_again_keeps_shape (U:=Mix64) node_B0
              fresh_world) as (_ & Hagain).
  destruct (SetShapeDeferred_again_keeps_shape (U:=Mix64) node_B
              fresh_world) as (Hshape & _).
  split.
  - apply (Hagain eq_refl infer_4x4 infer_2x8 node_B w1). reflexivity.
  - rewrite (Hshape infer_2x8). reflexivity.
Defined.

(** C3 (as stated) fails: B is constructed with the shape f32[4,4]; a
    deferred resolution with a shape function that returns f32[2,8], in a
    process whose cache has no entry for B's hash, replaces the stored
    shape. *)
Lemma SetShapeDeferred_overwrites_eager_shape :
  @TsNode_ctor Mix64 op_add A_A f32_4x4 1 5%Z fresh_world
    = (Ok node_B, fresh_world) /\
  @shape Mix64 node_B = f32_4x4 /\
  exists this' w',
    @SetShapeDeferred Mix64 node_B infer_2x8 fresh_world = (Ok this', w') /\
    shape this' = f32_2x8 /\
    shape this' <> shape node_B.
Proof.
  split; [reflexivity|]. split; [reflexivity|].
  do 2 eexists. split; [reflexivity|]. split; [reflexivity|].
  simpl. discriminate.
Qed.

Lemma failed_shape_fn_leaves_cache_witness :
  exists w',
    @SetShapeDeferred Mix64 node_B0 infer_fails fresh_world
      = (Raise (InferenceFailure "shape mismatch"), w') /\
    cache_entries w' = [] /\
    cached w' (hash node_B0) = None /\
    exists w'',
      @SetShapeDeferred Mix64 node_B0 infer_4x4 w' = (Ok node_B, w'') /\
      shape_fn_calls w'' = 2.
Proof.
  destruct (failed_shape_fn_leaves_cache (U:=Mix64) node_B0 infer_fails
              fresh_world eq_refl eq_refl)
    as (w' & Hrun & Hentries & Hmiss & Hlater).
  exists w'.
  split; [exact Hrun|]. split; [exact Hentries|]. split; [exact Hmiss|].
  destruct (Hlater node_B0 infer_4x4 eq_refl) as (w'' & Hrun' & Hcalls).
  exists w''. split; [exact Hrun'|].
  rewrite Hcalls.
  assert (Hw' : w' = snd (@SetShapeDeferred Mix64 node_B0 infer_fails
                            fresh_world))
    by (rewrite Hrun; reflexivity).
  rewrite Hw'. reflexivity.
Defined.

Lemma ShapeCache_bounded_witness :
  (exists c,
     static_cache (snd (@GetShapeCache Mix64 fresh_world)) = Some c /\
     max_size_ c = 4096%Z) /\
  (exists c,
     static_cache (snd (@GetShapeCache Mix64 (configured_world 2))) = Some c /\
     max_size_ c = to_size_t 2) /\
  within_capacity (@Cache_run Mix64 three_adds (Cache_new (to_size_t 2))) /\
  within_capacity (@Cache_run Mix64 three_adds (Cache_new (to_size_t 0))) /\
  (exists k,
     In k [1; 2; 3]%Z /\
     fst (@Cache_Get Mix64 k (Cache_run three_adds (Cache_new (to_size_t 2))))
       = None) /\
  (exists k,
     In k [3]%Z /\
     fst (@Cache_Get Mix64 k (Cache_run three_adds (Cache_new (to_size_t 0))))
       = None) /\
  In (@OpAdd Mix64 3%Z s64_4) three_adds.
Proof.
  destruct (ShapeCache_bounded (U:=Mix64))
    as (Hcap & Hbound & Hevict & Hright).
  refine (conj _ (conj _ (conj _ (conj _ (conj _ (conj _ _)))))).
  - destruct (Hcap fresh_world eq_refl) as (c & Hc & _ & Hdef & _).
    exists c. split; [exact Hc | exact (Hdef eq_refl)].
  - destruct (Hcap (configured_world 2) eq_refl) as (c & Hc & _ & _ & Hset).
    exists c. split; [exact Hc | exact (Hset 2%Z eq_refl)].
  - exact (proj1 (Hbound 2%Z three_adds)).
  - exact (proj1 (Hbound 0%Z three_adds)).
  - apply (Hevict 2%Z three_adds [1; 2; 3]%Z).
    + repeat constructor; simpl; intuition discriminate.
    + intros k [<-|[<-|[<-|[]]]]; eexists; simpl; eauto.
    + vm_compute. reflexivity.
  - apply (Hevict 0%Z three_adds [3]%Z).
    + repeat constructor; simpl; intuition.
    + intros k [<-|[]]; eexists; simpl; eauto.
    + vm_compute. reflexivity.
  - apply (Hright 2%Z three_adds 3%Z s64_4).
    vm_compute. reflexivity.
Defined.

Lemma TsNode_ctor_fn_shares_inference_witness :
  let r := (a <- @TsNode_ctor_fn Mix64 op_add A_A infer_4x4 1 5%Z ;;
            b <- TsNode_ctor_fn op_add A_A infer_fails 1 5%Z ;;
            ret (a, b))%ltc fresh_world in
  shape_fn_calls (snd r) <= 1 /\
  exists b,
    fst r = Ok (node_B, b) /\ @shape Mix64 b = f32_4x4 /\
    @hash Mix64 b = hash node_B.
Proof.
  intros r.
  assert (Hpos : (0 < max_size_ (@shape_cache Mix64 fresh_world))%Z)
    by reflexivity.
  destruct (TsNode_ctor_fn_shares_inference (U:=Mix64) op_add A_A A_A
              infer_4x4 infer_fails 1 1 5%Z fresh_world eq_refl Hpos)
    as [Hcalls Hboth].
  split; [exact Hcalls|].
  destruct (Hboth eq_refl node_B
              (snd (@TsNode_ctor_fn Mix64 op_add A_A infer_4x4 1 5%Z
                      fresh_world)) eq_refl)
    as (b & Hr & Hshape & Hhash & _).
  exists b. split; [exact Hr|]. split; [exact Hshape | exact Hhash].
Defined.

Lemma TsNodeSetShapeDeferred_then_GetShape_witness :
  let w' := snd (@TsNodeSetShapeDeferred Mix64 (Node_TsNode node_B0)
                   infer_4x4 fresh_world) in
  @GetShapeFromTsNode Mix64 (Node_TsNode node_B) = Ok f32_4x4 /\
  cached w' (hash node_B) = Some f32_4x4.
Proof.
  intros w'.
  destruct (@TsNodeSetShapeDeferred_then_GetShape Mix64
              (Node_TsNode node_B0) (Node_TsNode node_B) infer_4x4
              fresh_world w' eq_refl)
    as (ts & ts' & _ & Hcast & _ & Hget & Hcached & _).
  injection Hcast as <-.
  split; [exact Hget | apply Hcached; reflexivity].
Defined.

Lemma unresolved_node_shape_witness :
  let this := @unresolved Mix64 op_topk A_A 3 5%Z no_metadata in
  @TsNode_ctor_noshape Mix64 op_topk A_A 3 5%Z fresh_world
    = (Ok this, fresh_world) /\
  num_outputs this = 3 /\
  shape_at this 0 = Ok Shape_default /\
  shape_at this 1 = Raise InvalidArgument.
Proof.
  intros this.
  assert (H : @TsNode_ctor_noshape Mix64 op_topk A_A 3 5%Z fresh_world
              = (Ok this, fresh_world)) by reflexivity.
  destruct (@unresolved_node_shape Mix64 op_topk A_A 3 5%Z fresh_world
              fresh_world this H) as (Hn & _ & _ & H0 & Hi).
  split; [exact H|]. split; [exact Hn|]. split; [exact H0 | exact (Hi 0)].
Defined.

Lemma GetShapeFromTsOutput_of_node_shape_witness :
  exists s,
    @GetShapeFromTsNode Mix64 (Node_TsNode (@triple_node Mix64 1%Z)) = Ok s /\
    ((IsTuple s = false /\ 1 = 0 /\ f32_2x8 = s) \/
     (exists elems, s = TupleShape elems /\ nth_error elems 1 = Some f32_2x8)).
Proof.
  apply (@GetShapeFromTsOutput_of_node_shape Mix64
           (Node_TsNode (@triple_node Mix64 1%Z)) 1 f32_2x8).
  left. reflexivity.
Defined.

Lemma shape_at_all_outputs_witness :
  map (@shape_at Mix64 (@triple_node Mix64 1%Z)) [0; 1; 2]
  = [Ok f32_4x4; Ok f32_2x8; Ok s64_4].
Proof.
  apply (@shape_at_all_outputs Mix64 (@triple_node Mix64 1%Z)
           [f32_4x4; f32_2x8; s64_4]).
  reflexivity.
Defined.

Lemma SetShapeDeferred_cache_calls_witness :
  let w1 := snd (@SetShapeDeferred Mix64 node_B0 infer_4x4 fresh_world) in
  let w2 := snd (@SetShapeDeferred Mix64 leaf_A infer_2x8 w1) in
  within_capacity (shape_cache w2) /\
  forall (k : Z) (v : Shape),
    In (k, v) (cache_entries w2) ->
    In (k, v) (cache_entries w1) \/
    (k = hash leaf_A /\ cached w1 k = None /\ infer_2x8 tt = Ok v).
Proof.
  intros w1 w2.
  destruct (SetShapeDeferred_cache_calls (U:=Mix64) leaf_A infer_2x8 w1)
    as (_ & Hentries & Hwithin).
  split.
  - apply Hwithin.
    + reflexivity.
    + unfold within_capacity. vm_compute. discriminate.
  - exact Hentries.
Defined.

Lemma ToString_shape_prefix_witness :
  @ToString Mix64 OpKind_render frames_render node_B
  = "f32[4,4] aten::add"%string.
Proof.
  rewrite (proj2 (ToString_shape_prefix (U:=Mix64) OpKind_render
                    frames_render node_B)).
  - reflexivity.
  - exact (le_n 1).
  - reflexivity.
Defined.

Lemma resolution_error_sources_witness :
  let r := @SetShapeDeferred Mix64 node_B0 infer_fails fresh_world in
  cached fresh_world (hash node_B0) = None /\
  infer_fails tt = Raise (InferenceFailure "shape mismatch") /\
  cache_entries (snd r) = @cache_entries Mix64 fresh_world.
Proof.
  intros r.
  apply (proj1 (@resolution_error_sources Mix64 infer_fails fresh_world
                  (snd r) (InferenceFailure "shape mismatch")) node_B0).
  reflexivity.
Defined.

Lemma TsNode_ctor_hash_by_operand_witness :
  let v : @Value Mix64 := {| node := Node_TsNode leaf_A; index := 0 |} in
  exists none this more,
    @TsNode_ctor Mix64 op_add [] f32_4x4 1 5%Z fresh_world
      = (Ok none, fresh_world) /\
    @TsNode_ctor Mix64 op_add [v] f32_4x4 1 5%Z fresh_world
      = (Ok this, fresh_world) /\
    @TsNode_ctor Mix64 op_add A_A f32_4x4 1 5%Z fresh_world
      = (Ok more, fresh_world) /\
    hash none = node_hash none /\
    hash more = HashCombine (hash this) (Value_hash v).
Proof.
  intros v.
  destruct (@TsNode_ctor_hash_by_operand Mix64 op_add f32_4x4 1 5%Z
              fresh_world [v] v eq_refl)
    as (none & this & more & H0 & H1 & H2 & Hnone & _ & _ & Hmore).
  exists none, this, more.
  split; [exact H0|]. split; [exact H1|]. split; [exact H2|].
  split; [exact Hnone | exact Hmore].
Defined.
